(** * opentensor wire schema and the CIFAR training example

    A shallow embedding of [opentensor/opentensor_pb2.py] (the protobuf
    descriptors of the Synapse / Tensor messages and of the two RPC
    services), of the proto3 wire codec those descriptors select, and of
    the control flow of [examples/cifar/main.py]. *)

From Stdlib Require Import ZArith QArith List String Ascii Bool Lia.
From Stdlib.Strings Require Import Byte.
Import ListNotations.
Local Open Scope Z_scope.

(** ** Descriptor objects

    The classes of [google.protobuf.descriptor] as records.  Only the
    constructor arguments that carry schema information are kept;
    [create_key], [serialized_options], [file] and the serialized offsets
    are dropped.  A reference to another descriptor object
    ([message_type], [enum_type], [input_type], [output_type]) is the name
    under which that object is registered in the file descriptor, so that
    the later assignments of the module see one shared object per name. *)
Module descriptor.

(** [FieldDescriptor.TYPE_*] and [FieldDescriptor.LABEL_*]. *)
Definition TYPE_FLOAT : Z := 2.
Definition TYPE_INT64 : Z := 3.
Definition TYPE_STRING : Z := 9.
Definition TYPE_MESSAGE : Z := 11.
Definition TYPE_BYTES : Z := 12.
Definition TYPE_ENUM : Z := 14.
Definition LABEL_OPTIONAL : Z := 1.
Definition LABEL_REPEATED : Z := 3.

(** The [default_value] argument: [float(0)], [b"".decode('utf-8')],
    [b""], [[]], [None] and [0] in the source. *)
Inductive Default :=
| DefaultFloat0 | DefaultStr | DefaultBytes | DefaultList | DefaultNone
| DefaultInt (z : Z).

Record EnumValueDescriptor := {
  ev_name : string;
  ev_index : Z;
  ev_number : Z
}.

Record EnumDescriptor := {
  e_name : string;
  e_full_name : string;
  values : list EnumValueDescriptor
}.

Record FieldDescriptor := {
  name : string;
  full_name : string;
  index : Z;
  number : Z;
  type : Z;
  cpp_type : Z;
  label : Z;
  default_value : Default;
  message_type : option string;
  enum_type : option string
}.

Record Descriptor := {
  d_name : string;
  d_full_name : string;
  fields : list FieldDescriptor;
  d_syntax : string
}.

Record MethodDescriptor := {
  m_name : string;
  m_full_name : string;
  m_index : Z;
  input_type : string;
  output_type : string
}.

Record ServiceDescriptor := {
  s_name : string;
  s_full_name : string;
  s_index : Z;
  methods : list MethodDescriptor
}.

Record FileDescriptor := {
  f_name : string;
  package : string;
  syntax : string;
  message_types_by_name : list (string * Descriptor);
  enum_types_by_name : list (string * EnumDescriptor);
  services_by_name : list (string * ServiceDescriptor)
}.

(** [d.fields_by_name[n]]. *)
Definition fields_by_name (d : Descriptor) (n : string) : option FieldDescriptor :=
  find (fun f => String.eqb (name f) n) (fields d).

(** [e.values_by_name[n]] and [e.values_by_number[k]]. *)
Definition values_by_name (e : EnumDescriptor) (n : string) : option EnumValueDescriptor :=
  find (fun v => String.eqb (ev_name v) n) (values e).

Definition values_by_number (e : EnumDescriptor) (k : Z) : option EnumValueDescriptor :=
  find (fun v => ev_number v =? k) (values e).

(** [d.fields_by_name[n].message_type = target]. *)
Definition set_message_type (d : Descriptor) (n target : string) : Descriptor :=
  {| d_name := d_name d; d_full_name := d_full_name d;
     fields := map (fun f =>
       if String.eqb (name f) n then
         {| name := name f; full_name := full_name f; index := index f;
            number := number f; type := type f; cpp_type := cpp_type f;
            label := label f; default_value := default_value f;
            message_type := Some target; enum_type := enum_type f |}
       else f) (fields d);
     d_syntax := d_syntax d |}.

(** [d.fields_by_name[n].enum_type = target]. *)
Definition set_enum_type (d : Descriptor) (n target : string) : Descriptor :=
  {| d_name := d_name d; d_full_name := d_full_name d;
     fields := map (fun f =>
       if String.eqb (name f) n then
         {| name := name f; full_name := full_name f; index := index f;
            number := number f; type := type f; cpp_type := cpp_type f;
            label := label f; default_value := default_value f;
            message_type := message_type f; enum_type := Some target |}
       else f) (fields d);
     d_syntax := d_syntax d |}.

(** A dictionary assignment [d[k] = v] on an insertion-ordered dict. *)
Fixpoint dict_set {A} (d : list (string * A)) (k : string) (v : A) : list (string * A) :=
  match d with
  | [] => [(k, v)]
  | (k', v') :: d' =>
      if String.eqb k' k then (k, v) :: d' else (k', v') :: dict_set d' k v
  end.

Fixpoint dict_get {A} (d : list (string * A)) (k : string) : option A :=
  match d with
  | [] => None
  | (k', v) :: d' => if String.eqb k' k then Some v else dict_get d' k
  end.

(** *** Reading a field descriptor

    The element type and the cardinality a field descriptor stands for,
    in the vocabulary of the schema description. *)
Inductive FieldType :=
| float32 | int64 | string_ | bytes
| enum (e : string) | message (m : string).

Inductive Cardinality := singular | repeated.

Definition field_type (f : FieldDescriptor) : option FieldType :=
  if type f =? TYPE_FLOAT then Some float32
  else if type f =? TYPE_INT64 then Some int64
  else if type f =? TYPE_STRING then Some string_
  else if type f =? TYPE_BYTES then Some bytes
  else if type f =? TYPE_ENUM then option_map enum (enum_type f)
  else if type f =? TYPE_MESSAGE then option_map message (message_type f)
  else None.

Definition cardinality (f : FieldDescriptor) : option Cardinality :=
  if label f =? LABEL_OPTIONAL then Some singular
  else if label f =? LABEL_REPEATED then Some repeated
  else None.

(** Name, cardinality and element type of a field. *)
Definition field_signature (f : FieldDescriptor)
  : option (string * Cardinality * FieldType) :=
  match cardinality f, field_type f with
  | Some c, Some t => Some (name f, c, t)
  | _, _ => None
  end.

(** The fields of a message in declaration order. *)
Definition message_signature (d : Descriptor)
  : list (option (string * Cardinality * FieldType)) :=
  map field_signature (fields d).

(** The values of an enum in declaration order, as name / number pairs. *)
Definition enum_signature (e : EnumDescriptor) : list (string * Z) :=
  map (fun v => (ev_name v, ev_number v)) (values e).

End descriptor.


(** ** The generated module [opentensor/opentensor_pb2.py] *)
Module opentensor_pb2.
Import descriptor.
Local Open Scope string_scope.

(** The call [_descriptor.FieldDescriptor(name=, full_name=, index=, number=,
    type=, cpp_type=, label=, default_value=, message_type=None,
    enum_type=None, ...)]. *)
Definition Field (name full_name : string) (index number type cpp_type label : Z)
    (default_value : Default) : FieldDescriptor :=
  {| name := name; full_name := full_name; index := index; number := number;
     type := type; cpp_type := cpp_type; label := label;
     default_value := default_value; message_type := None; enum_type := None |}.

(** [_DATATYPE], lines 26-63. *)
Definition _DATATYPE : EnumDescriptor :=
  {| e_name := "DataType"; e_full_name := "DataType";
     values := [
       {| ev_name := "DT_FLOAT32"; ev_index := 0; ev_number := 0 |};
       {| ev_name := "DT_FLOAT64"; ev_index := 1; ev_number := 1 |};
       {| ev_name := "DT_INT32"; ev_index := 2; ev_number := 2 |};
       {| ev_name := "DT_INT64"; ev_index := 3; ev_number := 3 |};
       {| ev_name := "UNKNOWN"; ev_index := 4; ev_number := 4 |}
     ] |}.

(** The module-level constants of lines 67-71. *)
Definition DT_FLOAT32 : Z := 0.
Definition DT_FLOAT64 : Z := 1.
Definition DT_INT32 : Z := 2.
Definition DT_INT64 : Z := 3.
Definition UNKNOWN : Z := 4.

(** The message descriptors as constructed (lines 75-379), before the
    cross references are filled in. *)
Definition _SYNAPSEBATCH_decl : Descriptor :=
  {| d_name := "SynapseBatch"; d_full_name := "SynapseBatch";
     fields := [
       Field "version" "SynapseBatch.version" 0 1 2 6 1 DefaultFloat0;
       Field "neuron_key" "SynapseBatch.neuron_key" 1 2 9 9 1 DefaultStr;
       Field "signature" "SynapseBatch.signature" 2 3 12 9 1 DefaultBytes;
       Field "synapses" "SynapseBatch.synapses" 3 4 11 10 3 DefaultList
     ];
     d_syntax := "proto3" |}.

Definition _SYNAPSE_decl : Descriptor :=
  {| d_name := "Synapse"; d_full_name := "Synapse";
     fields := [
       Field "version" "Synapse.version" 0 1 2 6 1 DefaultFloat0;
       Field "neuron_key" "Synapse.neuron_key" 1 2 9 9 1 DefaultStr;
       Field "signature" "Synapse.signature" 2 3 12 9 1 DefaultBytes;
       Field "block_hash" "Synapse.block_hash" 3 4 12 9 1 DefaultBytes;
       Field "proof_of_work" "Synapse.proof_of_work" 4 5 12 9 1 DefaultBytes;
       Field "identity" "Synapse.identity" 5 6 9 9 1 DefaultStr;
       Field "address" "Synapse.address" 6 7 9 9 1 DefaultStr;
       Field "port" "Synapse.port" 7 8 9 9 1 DefaultStr;
       Field "m_port" "Synapse.m_port" 8 9 9 9 1 DefaultStr;
       Field "indef" "Synapse.indef" 9 10 11 10 1 DefaultNone;
       Field "outdef" "Synapse.outdef" 10 11 11 10 1 DefaultNone
     ];
     d_syntax := "proto3" |}.

Definition _TENSORMESSAGE_decl : Descriptor :=
  {| d_name := "TensorMessage"; d_full_name := "TensorMessage";
     fields := [
       Field "version" "TensorMessage.version" 0 1 2 6 1 DefaultFloat0;
       Field "neuron_key" "TensorMessage.neuron_key" 1 2 9 9 1 DefaultStr;
       Field "source_id" "TensorMessage.source_id" 2 3 9 9 1 DefaultStr;
       Field "target_id" "TensorMessage.target_id" 3 4 9 9 1 DefaultStr;
       Field "nounce" "TensorMessage.nounce" 4 5 12 9 1 DefaultBytes;
       Field "signature" "TensorMessage.signature" 5 6 12 9 1 DefaultBytes;
       Field "tensors" "TensorMessage.tensors" 6 7 11 10 3 DefaultList
     ];
     d_syntax := "proto3" |}.

Definition _TENSOR_decl : Descriptor :=
  {| d_name := "Tensor"; d_full_name := "Tensor";
     fields := [
       Field "buffer" "Tensor.buffer" 0 1 12 9 1 DefaultBytes;
       Field "tensor_def" "Tensor.tensor_def" 1 2 11 10 1 DefaultNone
     ];
     d_syntax := "proto3" |}.

Definition _TENSORDEF_decl : Descriptor :=
  {| d_name := "TensorDef"; d_full_name := "TensorDef";
     fields := [
       Field "shape" "TensorDef.shape" 0 2 3 2 3 DefaultList;
       Field "dtype" "TensorDef.dtype" 1 4 14 8 1 (DefaultInt 0)
     ];
     d_syntax := "proto3" |}.

(** Lines 381-386: the cross references.  Each target is the registered
    name of the descriptor object assigned in the source. *)
Definition _SYNAPSEBATCH : Descriptor :=
  set_message_type _SYNAPSEBATCH_decl "synapses" (d_name _SYNAPSE_decl).

Definition _SYNAPSE : Descriptor :=
  set_message_type
    (set_message_type _SYNAPSE_decl "indef" (d_name _TENSORDEF_decl))
    "outdef" (d_name _TENSORDEF_decl).

Definition _TENSORMESSAGE : Descriptor :=
  set_message_type _TENSORMESSAGE_decl "tensors" (d_name _TENSOR_decl).

Definition _TENSOR : Descriptor :=
  set_message_type _TENSOR_decl "tensor_def" (d_name _TENSORDEF_decl).

Definition _TENSORDEF : Descriptor :=
  set_enum_type _TENSORDEF_decl "dtype" (e_name _DATATYPE).

(** [_OPENTENSOR], lines 432-462, and [_METAGRAPH], lines 468-488. *)
Definition _OPENTENSOR : ServiceDescriptor :=
  {| s_name := "Opentensor"; s_full_name := "Opentensor"; s_index := 0;
     methods := [
       {| m_name := "Fwd"; m_full_name := "Opentensor.Fwd"; m_index := 0;
          input_type := d_name _TENSORMESSAGE;
          output_type := d_name _TENSORMESSAGE |};
       {| m_name := "Bwd"; m_full_name := "Opentensor.Bwd"; m_index := 1;
          input_type := d_name _TENSORMESSAGE;
          output_type := d_name _TENSORMESSAGE |}
     ] |}.

Definition _METAGRAPH : ServiceDescriptor :=
  {| s_name := "Metagraph"; s_full_name := "Metagraph"; s_index := 1;
     methods := [
       {| m_name := "Gossip"; m_full_name := "Metagraph.Gossip"; m_index := 0;
          input_type := d_name _SYNAPSEBATCH;
          output_type := d_name _SYNAPSEBATCH |}
     ] |}.

(** [DESCRIPTOR] after the registrations of lines 387-392, 465 and 491.
    [serialized_pb], the same schema in serialized form, is the subject of
    the module [serialized] below. *)
Definition DESCRIPTOR : FileDescriptor :=
  {| f_name := "opentensor/opentensor.proto";
     package := "";
     syntax := "proto3";
     message_types_by_name :=
       dict_set (dict_set (dict_set (dict_set (dict_set []
         "SynapseBatch" _SYNAPSEBATCH)
         "Synapse" _SYNAPSE)
         "TensorMessage" _TENSORMESSAGE)
         "Tensor" _TENSOR)
         "TensorDef" _TENSORDEF;
     enum_types_by_name := dict_set [] "DataType" _DATATYPE;
     services_by_name :=
       dict_set (dict_set [] "Opentensor" _OPENTENSOR) "Metagraph" _METAGRAPH |}.

(** The request and response message names of every method the file
    descriptor registers, service by service. *)
Definition rpc_surface : list (string * string * string) :=
  flat_map (fun kv =>
      map (fun m => (m_name m, input_type m, output_type m)) (methods (snd kv)))
    (services_by_name DESCRIPTOR).

End opentensor_pb2.

(** ** The training example [examples/cifar/main.py]

    [main] and its inner function [test], with the collaborators of the
    script (the model, the optimizer, the bittensor runtime, the dataset
    and the model toolbox) as parameters.  A collaborator call returns
    [None] when it raises.  The calls the script makes on the outside world
    are recorded in a trace. *)

Module cifar.

(** Python floats on the paths of [main]: [math.inf], [0.0], the counters
    and their quotients by a length.  These are exact in binary floating
    point for the value [0.0], so a float is kept as a rational in lowest
    terms or as [math.inf]. *)
Inductive pyfloat := Fin (q : Q) | Inf.

Definition zero : pyfloat := Fin 0.

(** [a < b]. *)
Definition flt (a b : pyfloat) : bool :=
  match a, b with
  | Fin x, Fin y => negb (Qle_bool y x)
  | Fin _, Inf => true
  | Inf, _ => false
  end.
Arguments flt : simpl never.

Inductive exception :=
| UnboundLocalError (name : string)
| ZeroDivisionError
| ExternalError.

(** How a piece of the script ends: with a value, with an exception, or
    still inside [while True] when the observation stops. *)
Inductive outcome (A : Type) :=
| Return (a : A)
| Raise (e : exception)
| Running.
Arguments Return {A} a.
Arguments Raise {A} e.
Arguments Running {A}.

Inductive event :=
| Init | Serve | Start
| LoadModel (path : string)
| Train (epoch : Z)
| Test
| SaveModel (epoch : Z) (loss : pyfloat)
| Stop.

Definition trace := list event.

(** Computations that extend the trace and end in an [outcome]. *)
Definition M (A : Type) : Type := trace -> trace * outcome A.

Definition ret {A} (a : A) : M A := fun t => (t, Return a).

Definition bind {A B} (c : M A) (k : A -> M B) : M B :=
  fun t =>
    match c t with
    | (t', Return a) => k a t'
    | (t', Raise e) => (t', Raise e)
    | (t', Running) => (t', Running)
    end.

Definition raise {A} (e : exception) : M A := fun t => (t, Raise e).

Definition emit (e : event) : M unit := fun t => (t ++ [e], Return tt).

(** A call to a collaborator. *)
Definition call {A} (r : option A) : M A :=
  match r with
  | Some a => ret a
  | None => raise ExternalError
  end.

(** Reading a local variable of [main]: unbound locals raise. *)
Definition load_local {A} (name : string) (v : option A) : M A :=
  match v with
  | Some a => ret a
  | None => raise (UnboundLocalError name)
  end.

(** [try: body except Exception as e: handler]. *)
Definition try_except {A} (body : M A) (handler : exception -> M A) : M A :=
  fun t =>
    match body t with
    | (t', Raise e) => handler e t'
    | r => r
    end.

Declare Scope py_scope.
Delimit Scope py_scope with py.
Notation "x <- c ;; k" := (bind c (fun x => k))
  (at level 61, c at next level, right associativity) : py_scope.
Notation "c ;;; k" := (bind c (fun _ => k))
  (at level 61, right associativity) : py_scope.
Local Open Scope py_scope.

(** [x / n] for a float [x] and an [int] [n]. *)
Definition truediv (x : pyfloat) (n : Z) : M pyfloat :=
  if n =? 0 then raise ZeroDivisionError
  else ret (match x with
            | Fin q => Fin (Qred (q / inject_Z n))
            | Inf => Inf
            end).

(** [x + k] and [c * x] for a float [x]. *)
Definition fadd (x : pyfloat) (k : Z) : pyfloat :=
  match x with Fin q => Fin (Qred (q + inject_Z k)) | Inf => Inf end.

Definition fmul (c : Z) (x : pyfloat) : pyfloat :=
  match x with Fin q => Fin (Qred (inject_Z c * q)) | Inf => Inf end.

(** [torch.utils.data.DataLoader(dataset, batch_size, shuffle=False)]:
    consecutive batches, the last one possibly short. *)
Fixpoint batches {A} (fuel : nat) (batch_size : nat) (dataset : list A)
  : list (list A) :=
  match fuel, dataset with
  | O, _ => []
  | _, [] => []
  | S fuel', _ =>
      firstn batch_size dataset :: batches fuel' batch_size (skipn batch_size dataset)
  end.

Definition DataLoader {A} (dataset : list A) (batch_size : nat) : list (list A) :=
  batches (List.length dataset) batch_size dataset.

(** [a.eq(b).sum()] on two columns of class indices. *)
Fixpoint eq_sum (a b : list Z) : Z :=
  match a, b with
  | x :: a', y :: b' => (if x =? y then 1 else 0) + eq_sum a' b'
  | _, _ => 0
  end.

Section main.

Context {Hparams Config Model Optimizer Toolbox Image Outputs : Type}.

(** [MnistSynapse()] followed by [model.to(device)]. *)
Variable MnistSynapse : option Model.
(** [bittensor.Config(hparams)], [bittensor.init], [bittensor.serve],
    [bittensor.start], and the two [stop] calls of the handler. *)
Variable bittensor_Config : Hparams -> option Config.
Variable bittensor_init : Config -> option unit.
Variable bittensor_serve : Model -> option unit.
Variable bittensor_start : option unit.
Variable metagraph_stop : option unit.
Variable axon_stop : option unit.
(** [ModelToolbox('mnist')] and its [load_model] and [save_model]. *)
Variable ModelToolbox : string -> option Toolbox.
Variable toolbox_load_model :
  Toolbox -> Model -> string -> Optimizer -> option (Model * Optimizer * Z * pyfloat).
Variable toolbox_save_model :
  Toolbox -> Model -> Z -> Optimizer -> pyfloat -> option unit.
(** [config._hparams.load_model]; [None] is Python's [None]. *)
Variable hparams_load_model : Config -> option string.
(** [torchvision.datasets.CIFAR10(root, train=..., ...)]. *)
Variable CIFAR10 : Toolbox -> bool -> option (list (Image * Z)).
(** [optim.SGD(model.parameters(), lr, momentum)]. *)
Variable SGD : Model -> option Optimizer.
(** The inner function [train]: one pass over the training set, which
    updates the model and the optimizer in place. *)
Variable train : Model -> Optimizer -> list (Image * Z) -> Z -> option (Model * Optimizer).
(** [model.forward(images, labels, query=False)] and the arg-max column
    [outputs['local_target'].data.max(1, keepdim=True)[1]]. *)
Variable forward : Model -> list Image -> list Z -> option Outputs.
Variable max_logit : Outputs -> list Z.

Definition batch_size_train : nat := 64.
Definition batch_size_test : nat := 64.

(** The body of [for _, (images, labels) in enumerate(testloader)], on the
    two accumulators [loss] and [correct]. *)
Fixpoint test_loop (model : Model) (testloader : list (list (Image * Z)))
    (loss correct : pyfloat) : M (pyfloat * pyfloat) :=
  match testloader with
  | [] => ret (loss, correct)
  | batch :: rest =>
      let images := map fst batch in
      let labels := map snd batch in
      outputs <- call (forward model images labels) ;;
      let max_logit := max_logit outputs in
      let correct := fadd correct (eq_sum max_logit labels) in
      test_loop model rest loss correct
  end.

(** [test(model)], lines 117-144. *)
Definition test (model : Model) (testset : list (Image * Z)) : M (pyfloat * pyfloat) :=
  let testloader := DataLoader testset batch_size_test in
  let loss := zero in
  let correct := zero in
  lc <- test_loop model testloader loss correct ;;
  let '(loss, correct) := lc in
  let n := Z.of_nat (List.length testset) in
  loss <- truediv loss n ;;
  accuracy <- truediv (fmul 100 correct) n ;;
  ret (loss, accuracy).

(** The locals of [main] that the loop reads and writes. *)
Record locals := {
  model : Model;
  optimizer : Optimizer;
  epoch : Z;
  best_test_loss : pyfloat
}.

(** The [try] block of lines 148-163. *)
Definition try_body (toolbox : Toolbox) (trainset testset : list (Image * Z))
    (l : locals) : M locals :=
  emit (Train (epoch l)) ;;;
  mo <- call (train (model l) (optimizer l) trainset (epoch l)) ;;
  let '(model, optimizer) := mo in
  emit Test ;;;
  r <- test model testset ;;
  let '(test_loss, _) := r in
  if flt test_loss (best_test_loss l) then
    let best_test_loss := test_loss in
    emit (SaveModel (epoch l) test_loss) ;;;
    call (toolbox_save_model toolbox model (epoch l) optimizer test_loss) ;;;
    ret {| model := model; optimizer := optimizer;
           epoch := epoch l + 1; best_test_loss := best_test_loss |}
  else
    ret {| model := model; optimizer := optimizer;
           epoch := epoch l + 1; best_test_loss := best_test_loss l |}.

(** The [except] block of lines 165-170, up to its [break]. *)
Definition handler : M unit :=
  emit Stop ;;;
  call metagraph_stop ;;;
  call axon_stop.

(** [while True], lines 147-170, observed for [fuel] iterations. *)
Fixpoint while_true (fuel : nat) (toolbox : Toolbox)
    (trainset testset : list (Image * Z)) (l : locals) : M unit :=
  match fuel with
  | O => fun t => (t, Running)
  | S fuel' =>
      next <- try_except
                (l' <- try_body toolbox trainset testset l ;; ret (Some l'))
                (fun _ => handler ;;; ret None) ;;
      match next with
      | Some l' => while_true fuel' toolbox trainset testset l'
      | None => ret tt
      end
  end.

(** [main(hparams)], lines 29-170. *)
Definition main (fuel : nat) (hparams : Hparams) : M unit :=
  let epoch := 0 in
  let best_test_loss := Inf in
  let optimizer : option Optimizer := None in
  model <- call MnistSynapse ;;
  config <- call (bittensor_Config hparams) ;;
  emit Init ;;;
  call (bittensor_init config) ;;;
  emit Serve ;;;
  call (bittensor_serve model) ;;;
  emit Start ;;;
  call bittensor_start ;;;
  model_toolbox <- call (ModelToolbox "mnist") ;;
  loaded <-
    match hparams_load_model config with
    | Some path =>
        optimizer <- load_local "optimizer" optimizer ;;
        emit (LoadModel path) ;;;
        r <- call (toolbox_load_model model_toolbox model path optimizer) ;;
        let '(model, _, epoch, best_test_loss) := r in
        ret (model, epoch, best_test_loss)
    | None => ret (model, epoch, best_test_loss)
    end ;;
  let '(model, epoch, best_test_loss) := loaded in
  trainset <- call (CIFAR10 model_toolbox true) ;;
  testset <- call (CIFAR10 model_toolbox false) ;;
  optimizer <- call (SGD model) ;;
  while_true fuel model_toolbox trainset testset
    {| model := model; optimizer := optimizer;
       epoch := epoch; best_test_loss := best_test_loss |}.

(** The number of [save_model] calls in a trace, and whether it holds a
    training pass. *)
Definition saves (t : trace) : nat :=
  List.length (filter (fun e => match e with SaveModel _ _ => true | _ => false end) t).

Definition trained (t : trace) : bool :=
  existsb (fun e => match e with Train _ => true | _ => false end) t.

End main.

End cifar.

(** A run of the script to evaluate it on: collaborators that always
    return, a model without parameters that answers class 0 for every
    image, and a test set of two images. *)
Module cifar_run.

Definition forward (_ : unit) (images : list unit) (_ : list Z) : option (list Z) :=
  Some (map (fun _ => 0) images).

Definition max_logit (outputs : list Z) : list Z := outputs.

Definition testset : list (unit * Z) := [(tt, 0); (tt, 1)].

Definition test : unit -> list (unit * Z) -> cifar.M (cifar.pyfloat * cifar.pyfloat) :=
  cifar.test forward max_logit.

(** [main] under the option [load_model]. *)
Definition main (load_model : option string) : nat -> unit -> cifar.M unit :=
  cifar.main (Some tt) (fun _ : unit => Some tt) (fun _ : unit => Some tt)
    (fun _ => Some tt) (Some tt) (Some tt) (Some tt)
    (fun _ => Some tt)
    (fun (_ : unit) _ _ (o : unit) => Some (tt, o, 0, cifar.zero))
    (fun _ _ _ _ _ => Some tt) (fun _ => load_model)
    (fun _ _ => Some testset) (fun _ => Some tt)
    (fun m o _ _ => Some (m, o)) forward max_logit.

End cifar_run.

(** ** The proto3 wire codec

    [GeneratedProtocolMessageType] gives every message class of the
    module the serializer and the parser of the protobuf runtime, driven by
    the class's descriptor.  This module is that codec for the field types
    the descriptors of [opentensor_pb2] use, after the Protocol Buffers
    encoding rules: base-128 varints, tags [(field_number << 3) | wire_type],
    length-delimited strings, bytes, packed scalars and embedded messages,
    and little-endian fixed32 for [float]. *)
Module wire.

Inductive reason :=
| Truncated            (* 'Truncated message.' *)
| TooManyBytes         (* 'Too many bytes when decoding varint.' *)
| InvalidWireType      (* 'Tag had invalid wire type.' *)
| UnexpectedEndGroup   (* 'Unexpected end-group tag.' *)
| IllegalFieldNumber   (* 'Field number 0 is illegal.' *)
| InvalidUtf8          (* a string field that is not UTF-8 *)
| OutOfFuel.           (* never returned on an input shorter than the fuel *)

(** A parse either returns a value or raises [DecodeError]. *)
Inductive res (A : Type) :=
| Ok (a : A)
| DecodeError (r : reason).
Arguments Ok {A} a.
Arguments DecodeError {A} r.

Definition bind {A B} (c : res A) (k : A -> res B) : res B :=
  match c with
  | Ok a => k a
  | DecodeError r => DecodeError r
  end.

Declare Scope wire_scope.
Delimit Scope wire_scope with wire.
Notation "x <- c ;; k" := (bind c (fun x => k))
  (at level 61, c at next level, right associativity) : wire_scope.
Notation "' p <- c ;; k" := (bind c (fun x => match x with p => k end))
  (at level 61, p pattern, c at next level, right associativity) : wire_scope.
Local Open Scope wire_scope.

Definition byte2int (b : byte) : Z := Z.of_N (Byte.to_N b).

Definition int2byte (z : Z) : byte :=
  match Byte.of_N (Z.to_N z) with
  | Some b => b
  | None => x00
  end.

Definition len (s : list byte) : Z := Z.of_nat (List.length s).

Definition WIRETYPE_VARINT : Z := 0.
Definition WIRETYPE_FIXED64 : Z := 1.
Definition WIRETYPE_LENGTH_DELIMITED : Z := 2.
Definition WIRETYPE_START_GROUP : Z := 3.
Definition WIRETYPE_END_GROUP : Z := 4.
Definition WIRETYPE_FIXED32 : Z := 5.

(** *** Varints *)

(** The loop of [EncodeVarint]: [while value: write(0x80|bits); bits =
    value & 0x7f; value >>= 7], then [write(bits)]. *)
Fixpoint EncodeVarint_loop (fuel : nat) (bits value : Z) : list byte :=
  match fuel with
  | O => [int2byte bits]
  | S fuel' =>
      if value =? 0 then [int2byte bits]
      else int2byte (Z.lor 0x80 bits)
             :: EncodeVarint_loop fuel' (Z.land value 0x7f) (Z.shiftr value 7)
  end.

(** [EncodeVarint(write, value)] for [value >= 0]; the loop runs at most
    once per bit of [value]. *)
Definition EncodeVarint (value : Z) : list byte :=
  EncodeVarint_loop (Z.to_nat (Z.log2 value)) (Z.land value 0x7f) (Z.shiftr value 7).

(** [EncodeSignedVarint]: a negative value is sent as its 64-bit two's
    complement. *)
Definition EncodeSignedVarint (value : Z) : list byte :=
  EncodeVarint (if value <? 0 then value + Z.shiftl 1 64 else value).

(** The loop of [DecodeVarint]. *)
Fixpoint DecodeVarint_loop (mask result shift : Z) (buffer : list byte)
  : res (Z * list byte) :=
  match buffer with
  | [] => DecodeError Truncated
  | b :: buffer' =>
      let b := byte2int b in
      let result := Z.lor result (Z.shiftl (Z.land b 0x7f) shift) in
      if Z.land b 0x80 =? 0 then Ok (Z.land result mask, buffer')
      else
        let shift := shift + 7 in
        if 64 <=? shift then DecodeError TooManyBytes
        else DecodeVarint_loop mask result shift buffer'
  end.

(** [_DecodeVarint = _VarintDecoder((1 << 64) - 1)]: the value and the
    rest of the buffer. *)
Definition _DecodeVarint (buffer : list byte) : res (Z * list byte) :=
  DecodeVarint_loop (Z.shiftl 1 64 - 1) 0 0 buffer.

(** The sign step of [_SignedVarintDecoder(bits)] on a decoded varint:
    [result &= mask; result = (result ^ signbit) - signbit]. *)
Definition signed (bits : Z) (result : Z) : Z :=
  let signbit := Z.shiftl 1 (bits - 1) in
  let mask := Z.shiftl 1 bits - 1 in
  Z.lxor (Z.land result mask) signbit - signbit.

(** *** Tags and fields on the wire *)

Definition PackTag (field_number wire_type : Z) : Z :=
  Z.lor (Z.shiftl field_number 3) wire_type.

Definition UnpackTag (tag : Z) : Z * Z :=
  (Z.shiftr tag 3, Z.land tag 7).

Definition TagBytes (field_number wire_type : Z) : list byte :=
  EncodeVarint (PackTag field_number wire_type).

(** What follows a tag, by wire type.  The contents of a group are
    skipped, so only its two markers are kept. *)
Inductive WireValue :=
| Varint (value : Z)
| Fixed64 (data : list byte)
| LengthDelimited (data : list byte)
| StartGroup
| EndGroup
| Fixed32 (data : list byte).

Definition field : Type := Z * WireValue.

(** One field, as the encoders write it. *)
Definition write_field (f : field) : list byte :=
  match f with
  | (n, Varint value) => TagBytes n WIRETYPE_VARINT ++ EncodeVarint value
  | (n, Fixed64 data) => TagBytes n WIRETYPE_FIXED64 ++ data
  | (n, LengthDelimited data) =>
      TagBytes n WIRETYPE_LENGTH_DELIMITED ++ EncodeVarint (len data) ++ data
  | (n, StartGroup) => TagBytes n WIRETYPE_START_GROUP
  | (n, EndGroup) => TagBytes n WIRETYPE_END_GROUP
  | (n, Fixed32 data) => TagBytes n WIRETYPE_FIXED32 ++ data
  end.

Definition write_fields (fs : list field) : list byte :=
  flat_map write_field fs.

(** [size] bytes off the front of the buffer. *)
Definition take (size : Z) (buffer : list byte) : res (list byte * list byte) :=
  if len buffer <? size then DecodeError Truncated
  else Ok (firstn (Z.to_nat size) buffer, skipn (Z.to_nat size) buffer).

(** One tag and the value behind it. *)
Definition ReadField (buffer : list byte) : res (field * list byte) :=
  ' (tag, buffer) <- _DecodeVarint buffer ;;
  let (field_number, wire_type) := UnpackTag tag in
  if field_number =? 0 then DecodeError IllegalFieldNumber
  else if wire_type =? WIRETYPE_VARINT then
    ' (value, buffer) <- _DecodeVarint buffer ;;
    Ok ((field_number, Varint value), buffer)
  else if wire_type =? WIRETYPE_FIXED64 then
    ' (data, buffer) <- take 8 buffer ;;
    Ok ((field_number, Fixed64 data), buffer)
  else if wire_type =? WIRETYPE_LENGTH_DELIMITED then
    ' (size, buffer) <- _DecodeVarint buffer ;;
    ' (data, buffer) <- take size buffer ;;
    Ok ((field_number, LengthDelimited data), buffer)
  else if wire_type =? WIRETYPE_START_GROUP then
    Ok ((field_number, StartGroup), buffer)
  else if wire_type =? WIRETYPE_END_GROUP then
    Ok ((field_number, EndGroup), buffer)
  else if wire_type =? WIRETYPE_FIXED32 then
    ' (data, buffer) <- take 4 buffer ;;
    Ok ((field_number, Fixed32 data), buffer)
  else DecodeError InvalidWireType.

(** The parse loop [while pos != end], which yields the fields outside
    of any group in wire order.  [depth] counts the open groups: fields
    inside a group belong to no declared field and are skipped. *)
Fixpoint ReadFields (fuel depth : nat) (buffer : list byte) : res (list field) :=
  match buffer with
  | [] =>
      match depth with
      | O => Ok []
      | S _ => DecodeError Truncated
      end
  | _ :: _ =>
      match fuel with
      | O => DecodeError OutOfFuel
      | S fuel' =>
          ' (f, buffer') <- ReadField buffer ;;
          match snd f with
          | StartGroup => ReadFields fuel' (S depth) buffer'
          | EndGroup =>
              match depth with
              | O => DecodeError UnexpectedEndGroup
              | S depth' => ReadFields fuel' depth' buffer'
              end
          | _ =>
              fs <- ReadFields fuel' depth buffer' ;;
              Ok (match depth with O => f :: fs | S _ => fs end)
          end
      end
  end.

(** Every field takes at least one byte, so the length of the buffer is
    fuel enough. *)
Definition Fields (buffer : list byte) : res (list field) :=
  ReadFields (List.length buffer) 0 buffer.

(** Merging the fields of a buffer one by one into a message. *)
Fixpoint merge_fields {T} (merge : T -> field -> res T) (fs : list field) (self : T)
  : res T :=
  match fs with
  | [] => Ok self
  | f :: fs' => self' <- merge self f ;; merge_fields merge fs' self'
  end.

(** *** Field encoders

    Each encoder gives the fields it writes for one declared field; a
    negative varint value goes out as its 64-bit two's complement. *)

Definition unsigned64 (value : Z) : Z :=
  if value <? 0 then value + Z.shiftl 1 64 else value.

(** [struct.pack('<f', value)] on the IEEE single bit pattern [bits]. *)
Definition pack_f (bits : Z) : list byte :=
  [int2byte (bits mod 256); int2byte (bits / 256 mod 256);
   int2byte (bits / 65536 mod 256); int2byte (bits / 16777216 mod 256)].

Definition FloatEncoder (field_number : Z) (bits : Z) : list field :=
  [(field_number, Fixed32 (pack_f bits))].

(** A [str] is kept as its UTF-8 encoding, so [value.encode('utf-8')] is
    the value itself. *)
Definition StringEncoder (field_number : Z) (value : list byte) : list field :=
  [(field_number, LengthDelimited value)].

Definition BytesEncoder (field_number : Z) (value : list byte) : list field :=
  [(field_number, LengthDelimited value)].

(** [MessageEncoder] on the serialization of the sub-message, whose
    length is [value.ByteSize()]. *)
Definition MessageEncoder (field_number : Z) (serialized : list byte) : list field :=
  [(field_number, LengthDelimited serialized)].

Definition EnumEncoder (field_number : Z) (value : Z) : list field :=
  [(field_number, Varint (unsigned64 value))].

(** [Int64Encoder(field_number, is_repeated=True, is_packed)]. *)
Definition Int64Encoder (field_number : Z) (is_packed : bool) (value : list Z)
  : list field :=
  if is_packed then
    [(field_number, LengthDelimited (flat_map EncodeSignedVarint value))]
  else
    map (fun element => (field_number, Varint (unsigned64 element))) value.

(** Repeated scalar fields of a proto3 file are packed unless the field
    options say otherwise; no field of the module carries options. *)
Definition is_packed (d : descriptor.Descriptor) : bool :=
  String.eqb (descriptor.d_syntax d) "proto3".

(** The number a descriptor gives to the field of that name. *)
Definition number_of (d : descriptor.Descriptor) (name : string) : Z :=
  match descriptor.fields_by_name d name with
  | Some f => descriptor.number f
  | None => 0
  end.

(** *** Field decoders *)

(** [_FloatDecoder]: four little-endian bytes; a pattern with all
    exponent bits set is a NaN unless its significand is zero. *)
Definition _FloatDecoder (data : list byte) : res Z :=
  match data with
  | [c0; c1; c2; c3] =>
      let b0 := byte2int c0 in
      let b1 := byte2int c1 in
      let b2 := byte2int c2 in
      let b3 := byte2int c3 in
      if ((b3 =? 0x7F) || (b3 =? 0xFF)) && (0x80 <=? b2) then
        if negb ((b0 =? 0) && (b1 =? 0) && (b2 =? 0x80)) then Ok 0x7FC00000
        else if b3 =? 0xFF then Ok 0xFF800000
        else Ok 0x7F800000
      else Ok (b0 + 256 * b1 + 65536 * b2 + 16777216 * b3)
  | _ => DecodeError Truncated
  end.

(** [not new_value] on a float: both zeros clear a proto3 field. *)
Definition float_is_zero (bits : Z) : bool :=
  (bits =? 0) || (bits =? 0x80000000).

Definition between (lo hi : Z) (b : byte) : bool :=
  (lo <=? byte2int b) && (byte2int b <=? hi).

Definition continuation (b : byte) : bool := between 0x80 0xBF b.

(** Well-formed UTF-8: what [str(data, 'utf-8')] accepts. *)
Fixpoint utf8_valid (s : list byte) : bool :=
  match s with
  | [] => true
  | b0 :: s1 =>
      let c := byte2int b0 in
      if c <=? 0x7F then utf8_valid s1
      else if c <? 0xC2 then false
      else if c <=? 0xDF then
        match s1 with
        | b1 :: s2 => continuation b1 && utf8_valid s2
        | _ => false
        end
      else if c <=? 0xEF then
        match s1 with
        | b1 :: b2 :: s3 =>
            between (if c =? 0xE0 then 0xA0 else 0x80)
                    (if c =? 0xED then 0x9F else 0xBF) b1
            && continuation b2 && utf8_valid s3
        | _ => false
        end
      else if c <=? 0xF4 then
        match s1 with
        | b1 :: b2 :: b3 :: s4 =>
            between (if c =? 0xF0 then 0x90 else 0x80)
                    (if c =? 0xF4 then 0x8F else 0xBF) b1
            && continuation b2 && continuation b3 && utf8_valid s4
        | _ => false
        end
      else false
  end.

(** [_ConvertToUnicode]. *)
Definition _ConvertToUnicode (data : list byte) : res (list byte) :=
  if utf8_valid data then Ok data else DecodeError InvalidUtf8.

(** The loop of [DecodePackedField]: signed varints of [bits] bits up to
    the end of the payload. *)
Fixpoint DecodePacked_loop (fuel : nat) (bits : Z) (data : list byte) : res (list Z) :=
  match data with
  | [] => Ok []
  | _ :: _ =>
      match fuel with
      | O => DecodeError OutOfFuel
      | S fuel' =>
          ' (value, data') <- _DecodeVarint data ;;
          elements <- DecodePacked_loop fuel' bits data' ;;
          Ok (signed bits value :: elements)
      end
  end.

Definition DecodePacked (bits : Z) (data : list byte) : res (list Z) :=
  DecodePacked_loop (List.length data) bits data.

(** *** Valid field values *)

Definition int64_ok (value : Z) : bool :=
  (- Z.shiftl 1 63 <=? value) && (value <? Z.shiftl 1 63).

Definition int32_ok (value : Z) : bool :=
  (- Z.shiftl 1 31 <=? value) && (value <? Z.shiftl 1 31).

(** A NaN: the eight exponent bits set (seven in the top byte, one in the
    byte below) and a significand that is not zero. *)
Definition is_nan (bits : Z) : bool :=
  let b0 := bits mod 256 in
  let b1 := bits / 256 mod 256 in
  let b2 := bits / 65536 mod 256 in
  let b3 := bits / 16777216 mod 256 in
  ((b3 =? 0x7F) || (b3 =? 0xFF)) && (0x80 <=? b2)
  && negb ((b0 =? 0) && (b1 =? 0) && (b2 =? 0x80)).

(** A float32 bit pattern that is a number: NaN compares unequal to
    itself, and negative zero cannot be stored in a proto3 field. *)
Definition float32_ok (bits : Z) : bool :=
  (0 <=? bits) && (bits <? Z.shiftl 1 32)
  && negb (is_nan bits)
  && negb (bits =? 0x80000000).

(** A serialization whose length fits a 64-bit varint. *)
Definition size_ok (serialized : list byte) : bool :=
  len serialized <? Z.shiftl 1 64.

(** The fields the encoders above write: a positive field number, a
    varint of at most 64 bits, a length that fits a varint, fixed-width
    data of the right width, and no group marker. *)
Definition field_ok (f : field) : bool :=
  let (n, v) := f in
  (0 <? n) && (n <? Z.shiftl 1 61)
  && match v with
     | Varint value => (0 <=? value) && (value <? Z.shiftl 1 64)
     | Fixed64 data => len data =? 8
     | LengthDelimited data => size_ok data
     | Fixed32 data => len data =? 4
     | StartGroup | EndGroup => false
     end.

(** What is left to check of [field_ok] once the serialization the field
    is part of has a valid size. *)
Definition field_ok_but_size (f : field) : Prop :=
  match snd f with
  | LengthDelimited _ => (0 <? fst f) && (fst f <? Z.shiftl 1 61) = true
  | _ => field_ok f = true
  end.

End wire.

(** ** The generated message classes

    Each class is a record of its declared fields.  A [str] field holds
    the UTF-8 encoding of the string, a [float] field the IEEE single bit
    pattern, the open proto3 enum field [dtype] an [int32], a singular
    message field [None] until it is set. *)

(** *** The message class [TensorDef], lines 423-428 *)
Module TensorDef.
Import wire.
Local Open Scope wire_scope.

Record t := {
  shape : list Z;
  dtype : Z
}.

Definition DESCRIPTOR : descriptor.Descriptor := opentensor_pb2._TENSORDEF.

(** A fresh message: every field at its proto3 default. *)
Definition default : t :=
  {| shape := []; dtype := 0 |}.

Definition shape_number : Z := Eval cbv in number_of DESCRIPTOR "shape".
Definition dtype_number : Z := Eval cbv in number_of DESCRIPTOR "dtype".

Definition set_shape (value : list Z) (self : t) : t :=
  {| shape := value; dtype := dtype self |}.
Definition set_dtype (value : Z) (self : t) : t :=
  {| shape := shape self; dtype := value |}.

(** The fields [_InternalSerialize] writes: the present fields in
    field-number order, each through the encoder of its type. *)
Definition encoded_fields (self : t) : list field :=
  (match shape self with [] => [] | _ => Int64Encoder shape_number (is_packed DESCRIPTOR) (shape self) end)
  ++ (if dtype self =? 0 then [] else EnumEncoder dtype_number (dtype self)).

Definition SerializeToString (self : t) : list byte :=
  write_fields (encoded_fields self).

Definition ByteSize (self : t) : Z := len (SerializeToString self).

(** The decoder registered for the tag of [f], applied to the message;
    a tag no declared field owns leaves the declared fields alone. *)
Definition merge (self : t) (f : field) : res t :=
  let (n, v) := f in
  match v with
  | Varint value =>
      if n =? shape_number then
        Ok (set_shape (shape self ++ [signed 64 value]) self)
      else if n =? dtype_number then
        Ok (set_dtype (signed 32 value) self)
      else Ok self
  | LengthDelimited data =>
      if n =? shape_number then
        elements <- DecodePacked 64 data ;;
        Ok (set_shape (shape self ++ elements) self)
      else Ok self
  | _ => Ok self
  end.

(** [MergeFromString] and, on a fresh message, [FromString]. *)
Definition MergeFromString (self : t) (serialized : list byte) : res t :=
  fs <- Fields serialized ;;
  merge_fields merge fs self.

Definition FromString (serialized : list byte) : res t :=
  MergeFromString default serialized.

(** A message the setters of the class can build and the serializer can
    write: every field within the range of its type. *)
Definition valid (self : t) : bool :=
  forallb int64_ok (shape self)
  && int32_ok (dtype self)
  && size_ok (SerializeToString self).

End TensorDef.

(** *** The message class [Tensor], lines 416-421 *)
Module Tensor.
Import wire.
Local Open Scope wire_scope.

Record t := {
  buffer : list byte;
  tensor_def : option TensorDef.t
}.

Definition DESCRIPTOR : descriptor.Descriptor := opentensor_pb2._TENSOR.

(** A fresh message: every field at its proto3 default. *)
Definition default : t :=
  {| buffer := []; tensor_def := None |}.

Definition buffer_number : Z := Eval cbv in number_of DESCRIPTOR "buffer".
Definition tensor_def_number : Z := Eval cbv in number_of DESCRIPTOR "tensor_def".

Definition set_buffer (value : list byte) (self : t) : t :=
  {| buffer := value; tensor_def := tensor_def self |}.
Definition set_tensor_def (value : option TensorDef.t) (self : t) : t :=
  {| buffer := buffer self; tensor_def := value |}.

(** The fields [_InternalSerialize] writes: the present fields in
    field-number order, each through the encoder of its type. *)
Definition encoded_fields (self : t) : list field :=
  (match buffer self with [] => [] | _ => BytesEncoder buffer_number (buffer self) end)
  ++ (match tensor_def self with
   | Some value => MessageEncoder tensor_def_number (TensorDef.SerializeToString value)
   | None => []
   end).

Definition SerializeToString (self : t) : list byte :=
  write_fields (encoded_fields self).

Definition ByteSize (self : t) : Z := len (SerializeToString self).

(** The decoder registered for the tag of [f], applied to the message;
    a tag no declared field owns leaves the declared fields alone. *)
Definition merge (self : t) (f : field) : res t :=
  let (n, v) := f in
  match v with
  | LengthDelimited data =>
      if n =? buffer_number then
        Ok (set_buffer data self)
      else if n =? tensor_def_number then
        value <- TensorDef.MergeFromString
                   (match tensor_def self with Some value => value | None => TensorDef.default end)
                   data ;;
        Ok (set_tensor_def (Some value) self)
      else Ok self
  | _ => Ok self
  end.

(** [MergeFromString] and, on a fresh message, [FromString]. *)
Definition MergeFromString (self : t) (serialized : list byte) : res t :=
  fs <- Fields serialized ;;
  merge_fields merge fs self.

Definition FromString (serialized : list byte) : res t :=
  MergeFromString default serialized.

(** A message the setters of the class can build and the serializer can
    write: every field within the range of its type. *)
Definition valid (self : t) : bool :=
  match tensor_def self with Some value => TensorDef.valid value | None => true end
  && size_ok (SerializeToString self).

End Tensor.

(** *** The message class [Synapse], lines 402-407 *)
Module Synapse.
Import wire.
Local Open Scope wire_scope.

Record t := {
  version : Z;
  neuron_key : list byte;
  signature : list byte;
  block_hash : list byte;
  proof_of_work : list byte;
  identity : list byte;
  address : list byte;
  port : list byte;
  m_port : list byte;
  indef : option TensorDef.t;
  outdef : option TensorDef.t
}.

Definition DESCRIPTOR : descriptor.Descriptor := opentensor_pb2._SYNAPSE.

(** A fresh message: every field at its proto3 default. *)
Definition default : t :=
  {| version := 0; neuron_key := []; signature := []; block_hash := []; proof_of_work := []; identity := []; address := []; port := []; m_port := []; indef := None; outdef := None |}.

Definition version_number : Z := Eval cbv in number_of DESCRIPTOR "version".
Definition neuron_key_number : Z := Eval cbv in number_of DESCRIPTOR "neuron_key".
Definition signature_number : Z := Eval cbv in number_of DESCRIPTOR "signature".
Definition block_hash_number : Z := Eval cbv in number_of DESCRIPTOR "block_hash".
Definition proof_of_work_number : Z := Eval cbv in number_of DESCRIPTOR "proof_of_work".
Definition identity_number : Z := Eval cbv in number_of DESCRIPTOR "identity".
Definition address_number : Z := Eval cbv in number_of DESCRIPTOR "address".
Definition port_number : Z := Eval cbv in number_of DESCRIPTOR "port".
Definition m_port_number : Z := Eval cbv in number_of DESCRIPTOR "m_port".
Definition indef_number : Z := Eval cbv in number_of DESCRIPTOR "indef".
Definition outdef_number : Z := Eval cbv in number_of DESCRIPTOR "outdef".

Definition set_version (value : Z) (self : t) : t :=
  {| version := value; neuron_key := neuron_key self; signature := signature self; block_hash := block_hash self; proof_of_work := proof_of_work self; identity := identity self; address := address self; port := port self; m_port := m_port self; indef := indef self; outdef := outdef self |}.
Definition set_neuron_key (value : list byte) (self : t) : t :=
  {| version := version self; neuron_key := value; signature := signature self; block_hash := block_hash self; proof_of_work := proof_of_work self; identity := identity self; address := address self; port := port self; m_port := m_port self; indef := indef self; outdef := outdef self |}.
Definition set_signature (value : list byte) (self : t) : t :=
  {| version := version self; neuron_key := neuron_key self; signature := value; block_hash := block_hash self; proof_of_work := proof_of_work self; identity := identity self; address := address self; port := port self; m_port := m_port self; indef := indef self; outdef := outdef self |}.
Definition set_block_hash (value : list byte) (self : t) : t :=
  {| version := version self; neuron_key := neuron_key self; signature := signature self; block_hash := value; proof_of_work := proof_of_work self; identity := identity self; address := address self; port := port self; m_port := m_port self; indef := indef self; outdef := outdef self |}.
Definition set_proof_of_work (value : list byte) (self : t) : t :=
  {| version := version self; neuron_key := neuron_key self; signature := signature self; block_hash := block_hash self; proof_of_work := value; identity := identity self; address := address self; port := port self; m_port := m_port self; indef := indef self; outdef := outdef self |}.
Definition set_identity (value : list byte) (self : t) : t :=
  {| version := version self; neuron_key := neuron_key self; signature := signature self; block_hash := block_hash self; proof_of_work := proof_of_work self; identity := value; address := address self; port := port self; m_port := m_port self; indef := indef self; outdef := outdef self |}.
Definition set_address (value : list byte) (self : t) : t :=
  {| version := version self; neuron_key := neuron_key self; signature := signature self; block_hash := block_hash self; proof_of_work := proof_of_work self; identity := identity self; address := value; port := port self; m_port := m_port self; indef := indef self; outdef := outdef self |}.
Definition set_port (value : list byte) (self : t) : t :=
  {| version := version self; neuron_key := neuron_key self; signature := signature self; block_hash := block_hash self; proof_of_work := proof_of_work self; identity := identity self; address := address self; port := value; m_port := m_port self; indef := indef self; outdef := outdef self |}.
Definition set_m_port (value : list byte) (self : t) : t :=
  {| version := version self; neuron_key := neuron_key self; signature := signature self; block_hash := block_hash self; proof_of_work := proof_of_work self; identity := identity self; address := address self; port := port self; m_port := value; indef := indef self; outdef := outdef self |}.
Definition set_indef (value : option TensorDef.t) (self : t) : t :=
  {| version := version self; neuron_key := neuron_key self; signature := signature self; block_hash := block_hash self; proof_of_work := proof_of_work self; identity := identity self; address := address self; port := port self; m_port := m_port self; indef := value; outdef := outdef self |}.
Definition set_outdef (value : option TensorDef.t) (self : t) : t :=
  {| version := version self; neuron_key := neuron_key self; signature := signature self; block_hash := block_hash self; proof_of_work := proof_of_work self; identity := identity self; address := address self; port := port self; m_port := m_port self; indef := indef self; outdef := value |}.

(** The fields [_InternalSerialize] writes: the present fields in
    field-number order, each through the encoder of its type. *)
Definition encoded_fields (self : t) : list field :=
  (if version self =? 0 then [] else FloatEncoder version_number (version self))
  ++ (match neuron_key self with [] => [] | _ => StringEncoder neuron_key_number (neuron_key self) end)
  ++ (match signature self with [] => [] | _ => BytesEncoder signature_number (signature self) end)
  ++ (match block_hash self with [] => [] | _ => BytesEncoder block_hash_number (block_hash self) end)
  ++ (match proof_of_work self with [] => [] | _ => BytesEncoder proof_of_work_number (proof_of_work self) end)
  ++ (match identity self with [] => [] | _ => StringEncoder identity_number (identity self) end)
  ++ (match address self with [] => [] | _ => StringEncoder address_number (address self) end)
  ++ (match port self with [] => [] | _ => StringEncoder port_number (port self) end)
  ++ (match m_port self with [] => [] | _ => StringEncoder m_port_number (m_port self) end)
  ++ (match indef self with
   | Some value => MessageEncoder indef_number (TensorDef.SerializeToString value)
   | None => []
   end)
  ++ (match outdef self with
   | Some value => MessageEncoder outdef_number (TensorDef.SerializeToString value)
   | None => []
   end).

Definition SerializeToString (self : t) : list byte :=
  write_fields (encoded_fields self).

Definition ByteSize (self : t) : Z := len (SerializeToString self).

(** The decoder registered for the tag of [f], applied to the message;
    a tag no declared field owns leaves the declared fields alone. *)
Definition merge (self : t) (f : field) : res t :=
  let (n, v) := f in
  match v with
  | LengthDelimited data =>
      if n =? neuron_key_number then
        value <- _ConvertToUnicode data ;;
        Ok (set_neuron_key value self)
      else if n =? signature_number then
        Ok (set_signature data self)
      else if n =? block_hash_number then
        Ok (set_block_hash data self)
      else if n =? proof_of_work_number then
        Ok (set_proof_of_work data self)
      else if n =? identity_number then
        value <- _ConvertToUnicode data ;;
        Ok (set_identity value self)
      else if n =? address_number then
        value <- _ConvertToUnicode data ;;
        Ok (set_address value self)
      else if n =? port_number then
        value <- _ConvertToUnicode data ;;
        Ok (set_port value self)
      else if n =? m_port_number then
        value <- _ConvertToUnicode data ;;
        Ok (set_m_port value self)
      else if n =? indef_number then
        value <- TensorDef.MergeFromString
                   (match indef self with Some value => value | None => TensorDef.default end)
                   data ;;
        Ok (set_indef (Some value) self)
      else if n =? outdef_number then
        value <- TensorDef.MergeFromString
                   (match outdef self with Some value => value | None => TensorDef.default end)
                   data ;;
        Ok (set_outdef (Some value) self)
      else Ok self
  | Fixed32 data =>
      if n =? version_number then
        value <- _FloatDecoder data ;;
        Ok (set_version (if float_is_zero value then 0 else value) self)
      else Ok self
  | _ => Ok self
  end.

(** [MergeFromString] and, on a fresh message, [FromString]. *)
Definition MergeFromString (self : t) (serialized : list byte) : res t :=
  fs <- Fields serialized ;;
  merge_fields merge fs self.

Definition FromString (serialized : list byte) : res t :=
  MergeFromString default serialized.

(** A message the setters of the class can build and the serializer can
    write: every field within the range of its type. *)
Definition valid (self : t) : bool :=
  float32_ok (version self)
  && utf8_valid (neuron_key self)
  && utf8_valid (identity self)
  && utf8_valid (address self)
  && utf8_valid (port self)
  && utf8_valid (m_port self)
  && match indef self with Some value => TensorDef.valid value | None => true end
  && match outdef self with Some value => TensorDef.valid value | None => true end
  && size_ok (SerializeToString self).

End Synapse.

(** *** The message class [SynapseBatch], lines 395-400 *)
Module SynapseBatch.
Import wire.
Local Open Scope wire_scope.

Record t := {
  version : Z;
  neuron_key : list byte;
  signature : list byte;
  synapses : list Synapse.t
}.

Definition DESCRIPTOR : descriptor.Descriptor := opentensor_pb2._SYNAPSEBATCH.

(** A fresh message: every field at its proto3 default. *)
Definition default : t :=
  {| version := 0; neuron_key := []; signature := []; synapses := [] |}.

Definition version_number : Z := Eval cbv in number_of DESCRIPTOR "version".
Definition neuron_key_number : Z := Eval cbv in number_of DESCRIPTOR "neuron_key".
Definition signature_number : Z := Eval cbv in number_of DESCRIPTOR "signature".
Definition synapses_number : Z := Eval cbv in number_of DESCRIPTOR "synapses".

Definition set_version (value : Z) (self : t) : t :=
  {| version := value; neuron_key := neuron_key self; signature := signature self; synapses := synapses self |}.
Definition set_neuron_key (value : list byte) (self : t) : t :=
  {| version := version self; neuron_key := value; signature := signature self; synapses := synapses self |}.
Definition set_signature (value : list byte) (self : t) : t :=
  {| version := version self; neuron_key := neuron_key self; signature := value; synapses := synapses self |}.
Definition set_synapses (value : list Synapse.t) (self : t) : t :=
  {| version := version self; neuron_key := neuron_key self; signature := signature self; synapses := value |}.

(** The fields [_InternalSerialize] writes: the present fields in
    field-number order, each through the encoder of its type. *)
Definition encoded_fields (self : t) : list field :=
  (if version self =? 0 then [] else FloatEncoder version_number (version self))
  ++ (match neuron_key self with [] => [] | _ => StringEncoder neuron_key_number (neuron_key self) end)
  ++ (match signature self with [] => [] | _ => BytesEncoder signature_number (signature self) end)
  ++ flat_map (fun element => MessageEncoder synapses_number (Synapse.SerializeToString element))
    (synapses self).

Definition SerializeToString (self : t) : list byte :=
  write_fields (encoded_fields self).

Definition ByteSize (self : t) : Z := len (SerializeToString self).

(** The decoder registered for the tag of [f], applied to the message;
    a tag no declared field owns leaves the declared fields alone. *)
Definition merge (self : t) (f : field) : res t :=
  let (n, v) := f in
  match v with
  | LengthDelimited data =>
      if n =? neuron_key_number then
        value <- _ConvertToUnicode data ;;
        Ok (set_neuron_key value self)
      else if n =? signature_number then
        Ok (set_signature data self)
      else if n =? synapses_number then
        element <- Synapse.MergeFromString Synapse.default data ;;
        Ok (set_synapses (synapses self ++ [element]) self)
      else Ok self
  | Fixed32 data =>
      if n =? version_number then
        value <- _FloatDecoder data ;;
        Ok (set_version (if float_is_zero value then 0 else value) self)
      else Ok self
  | _ => Ok self
  end.

(** [MergeFromString] and, on a fresh message, [FromString]. *)
Definition MergeFromString (self : t) (serialized : list byte) : res t :=
  fs <- Fields serialized ;;
  merge_fields merge fs self.

Definition FromString (serialized : list byte) : res t :=
  MergeFromString default serialized.

(** A message the setters of the class can build and the serializer can
    write: every field within the range of its type. *)
Definition valid (self : t) : bool :=
  float32_ok (version self)
  && utf8_valid (neuron_key self)
  && forallb Synapse.valid (synapses self)
  && size_ok (SerializeToString self).

End SynapseBatch.

(** *** The message class [TensorMessage], lines 409-414 *)
Module TensorMessage.
Import wire.
Local Open Scope wire_scope.

Record t := {
  version : Z;
  neuron_key : list byte;
  source_id : list byte;
  target_id : list byte;
  nounce : list byte;
  signature : list byte;
  tensors : list Tensor.t
}.

Definition DESCRIPTOR : descriptor.Descriptor := opentensor_pb2._TENSORMESSAGE.

(** A fresh message: every field at its proto3 default. *)
Definition default : t :=
  {| version := 0; neuron_key := []; source_id := []; target_id := []; nounce := []; signature := []; tensors := [] |}.

Definition version_number : Z := Eval cbv in number_of DESCRIPTOR "version".
Definition neuron_key_number : Z := Eval cbv in number_of DESCRIPTOR "neuron_key".
Definition source_id_number : Z := Eval cbv in number_of DESCRIPTOR "source_id".
Definition target_id_number : Z := Eval cbv in number_of DESCRIPTOR "target_id".
Definition nounce_number : Z := Eval cbv in number_of DESCRIPTOR "nounce".
Definition signature_number : Z := Eval cbv in number_of DESCRIPTOR "signature".
Definition tensors_number : Z := Eval cbv in number_of DESCRIPTOR "tensors".

Definition set_version (value : Z) (self : t) : t :=
  {| version := value; neuron_key := neuron_key self; source_id := source_id self; target_id := target_id self; nounce := nounce self; signature := signature self; tensors := tensors self |}.
Definition set_neuron_key (value : list byte) (self : t) : t :=
  {| version := version self; neuron_key := value; source_id := source_id self; target_id := target_id self; nounce := nounce self; signature := signature self; tensors := tensors self |}.
Definition set_source_id (value : list byte) (self : t) : t :=
  {| version := version self; neuron_key := neuron_key self; source_id := value; target_id := target_id self; nounce := nounce self; signature := signature self; tensors := tensors self |}.
Definition set_target_id (value : list byte) (self : t) : t :=
  {| version := version self; neuron_key := neuron_key self; source_id := source_id self; target_id := value; nounce := nounce self; signature := signature self; tensors := tensors self |}.
Definition set_nounce (value : list byte) (self : t) : t :=
  {| version := version self; neuron_key := neuron_key self; source_id := source_id self; target_id := target_id self; nounce := value; signature := signature self; tensors := tensors self |}.
Definition set_signature (value : list byte) (self : t) : t :=
  {| version := version self; neuron_key := neuron_key self; source_id := source_id self; target_id := target_id self; nounce := nounce self; signature := value; tensors := tensors self |}.
Definition set_tensors (value : list Tensor.t) (self : t) : t :=
  {| version := version self; neuron_key := neuron_key self; source_id := source_id self; target_id := target_id self; nounce := nounce self; signature := signature self; tensors := value |}.

(** The fields [_InternalSerialize] writes: the present fields in
    field-number order, each through the encoder of its type. *)
Definition encoded_fields (self : t) : list field :=
  (if version self =? 0 then [] else FloatEncoder version_number (version self))
  ++ (match neuron_key self with [] => [] | _ => StringEncoder neuron_key_number (neuron_key self) end)
  ++ (match source_id self with [] => [] | _ => StringEncoder source_id_number (source_id self) end)
  ++ (match target_id self with [] => [] | _ => StringEncoder target_id_number (target_id self) end)
  ++ (match nounce self with [] => [] | _ => BytesEncoder nounce_number (nounce self) end)
  ++ (match signature self with [] => [] | _ => BytesEncoder signature_number (signature self) end)
  ++ flat_map (fun element => MessageEncoder tensors_number (Tensor.SerializeToString element))
    (tensors self).

Definition SerializeToString (self : t) : list byte :=
  write_fields (encoded_fields self).

Definition ByteSize (self : t) : Z := len (SerializeToString self).

(** The decoder registered for the tag of [f], applied to the message;
    a tag no declared field owns leaves the declared fields alone. *)
Definition merge (self : t) (f : field) : res t :=
  let (n, v) := f in
  match v with
  | LengthDelimited data =>
      if n =? neuron_key_number then
        value <- _ConvertToUnicode data ;;
        Ok (set_neuron_key value self)
      else if n =? source_id_number then
        value <- _ConvertToUnicode data ;;
        Ok (set_source_id value self)
      else if n =? target_id_number then
        value <- _ConvertToUnicode data ;;
        Ok (set_target_id value self)
      else if n =? nounce_number then
        Ok (set_nounce data self)
      else if n =? signature_number then
        Ok (set_signature data self)
      else if n =? tensors_number then
        element <- Tensor.MergeFromString Tensor.default data ;;
        Ok (set_tensors (tensors self ++ [element]) self)
      else Ok self
  | Fixed32 data =>
      if n =? version_number then
        value <- _FloatDecoder data ;;
        Ok (set_version (if float_is_zero value then 0 else value) self)
      else Ok self
  | _ => Ok self
  end.

(** [MergeFromString] and, on a fresh message, [FromString]. *)
Definition MergeFromString (self : t) (serialized : list byte) : res t :=
  fs <- Fields serialized ;;
  merge_fields merge fs self.

Definition FromString (serialized : list byte) : res t :=
  MergeFromString default serialized.

(** A message the setters of the class can build and the serializer can
    write: every field within the range of its type. *)
Definition valid (self : t) : bool :=
  float32_ok (version self)
  && utf8_valid (neuron_key self)
  && utf8_valid (source_id self)
  && utf8_valid (target_id self)
  && forallb Tensor.valid (tensors self)
  && size_ok (SerializeToString self).

End TensorMessage.


(** The trace of a run of [main] in which no collaborator raises, turn
    by turn of [while True]. *)
Module cifar_events.
Import cifar.



End cifar_events.

(** ** The registered message classes

    A message of any of the five classes the module registers with the
    symbol database (lines 395-428), with the methods they share. *)
Module message.
Import wire.

(** The registered classes. *)
Inductive cls :=
| SynapseBatch_cls | Synapse_cls | TensorMessage_cls | Tensor_cls | TensorDef_cls.

Inductive t :=
| SynapseBatch_msg (m : SynapseBatch.t)
| Synapse_msg (m : Synapse.t)
| TensorMessage_msg (m : TensorMessage.t)
| Tensor_msg (m : Tensor.t)
| TensorDef_msg (m : TensorDef.t).

(** [type(m)]. *)
Definition class_of (m : t) : cls :=
  match m with
  | SynapseBatch_msg _ => SynapseBatch_cls
  | Synapse_msg _ => Synapse_cls
  | TensorMessage_msg _ => TensorMessage_cls
  | Tensor_msg _ => Tensor_cls
  | TensorDef_msg _ => TensorDef_cls
  end.

(** [cls.DESCRIPTOR]. *)
Definition DESCRIPTOR (c : cls) : descriptor.Descriptor :=
  match c with
  | SynapseBatch_cls => SynapseBatch.DESCRIPTOR
  | Synapse_cls => Synapse.DESCRIPTOR
  | TensorMessage_cls => TensorMessage.DESCRIPTOR
  | Tensor_cls => Tensor.DESCRIPTOR
  | TensorDef_cls => TensorDef.DESCRIPTOR
  end.


(** [cls()]. *)
Definition default (c : cls) : t :=
  match c with
  | SynapseBatch_cls => SynapseBatch_msg SynapseBatch.default
  | Synapse_cls => Synapse_msg Synapse.default
  | TensorMessage_cls => TensorMessage_msg TensorMessage.default
  | Tensor_cls => Tensor_msg Tensor.default
  | TensorDef_cls => TensorDef_msg TensorDef.default
  end.

Definition SerializeToString (m : t) : list byte :=
  match m with
  | SynapseBatch_msg m => SynapseBatch.SerializeToString m
  | Synapse_msg m => Synapse.SerializeToString m
  | TensorMessage_msg m => TensorMessage.SerializeToString m
  | Tensor_msg m => Tensor.SerializeToString m
  | TensorDef_msg m => TensorDef.SerializeToString m
  end.

(** [cls.FromString(serialized)]. *)
Definition FromString (c : cls) (serialized : list byte) : res t :=
  match c with
  | SynapseBatch_cls =>
      bind (SynapseBatch.FromString serialized) (fun m => Ok (SynapseBatch_msg m))
  | Synapse_cls =>
      bind (Synapse.FromString serialized) (fun m => Ok (Synapse_msg m))
  | TensorMessage_cls =>
      bind (TensorMessage.FromString serialized) (fun m => Ok (TensorMessage_msg m))
  | Tensor_cls =>
      bind (Tensor.FromString serialized) (fun m => Ok (Tensor_msg m))
  | TensorDef_cls =>
      bind (TensorDef.FromString serialized) (fun m => Ok (TensorDef_msg m))
  end.

Definition valid (m : t) : bool :=
  match m with
  | SynapseBatch_msg m => SynapseBatch.valid m
  | Synapse_msg m => Synapse.valid m
  | TensorMessage_msg m => TensorMessage.valid m
  | Tensor_msg m => Tensor.valid m
  | TensorDef_msg m => TensorDef.valid m
  end.

End message.

(** Messages to evaluate the codec on: the tensor contract of a CIFAR
    synapse, a tensor of two [float32] elements, and a synapse, a batch
    and a tensor message around them. *)
Module sample.

Definition tensor_def : TensorDef.t :=
  {| TensorDef.shape := [1; 3; 32; 32]; TensorDef.dtype := opentensor_pb2.DT_FLOAT32 |}.

Definition tensor : Tensor.t :=
  {| Tensor.buffer := [x00; x00; x80; x3f; x00; x00; x00; x40];
     Tensor.tensor_def :=
       Some {| TensorDef.shape := [2]; TensorDef.dtype := opentensor_pb2.DT_FLOAT32 |} |}.

Definition synapse : Synapse.t :=
  {| Synapse.version := 0x3f800000;
     Synapse.neuron_key := [x41];
     Synapse.signature := [x01; x02];
     Synapse.block_hash := [];
     Synapse.proof_of_work := [xff];
     Synapse.identity := [xc3; xa9];
     Synapse.address := [x31; x32; x37; x2e; x30; x2e; x30; x2e; x31];
     Synapse.port := [x38; x30; x38; x30];
     Synapse.m_port := [];
     Synapse.indef := Some tensor_def;
     Synapse.outdef :=
       Some {| TensorDef.shape := [1; 10]; TensorDef.dtype := opentensor_pb2.DT_INT64 |} |}.

Definition synapse_batch : SynapseBatch.t :=
  {| SynapseBatch.version := 0x3f800000;
     SynapseBatch.neuron_key := [x41];
     SynapseBatch.signature := [];
     SynapseBatch.synapses := [synapse; Synapse.default] |}.

Definition tensor_message : TensorMessage.t :=
  {| TensorMessage.version := 0x3f800000;
     TensorMessage.neuron_key := [x41];
     TensorMessage.source_id := [x41];
     TensorMessage.target_id := [x42];
     TensorMessage.nounce := [x07];
     TensorMessage.signature := [x01; x02];
     TensorMessage.tensors := [tensor; Tensor.default] |}.

End sample.

(** ** The serialized file descriptor

    [DESCRIPTOR] is built with [serialized_pb], the [FileDescriptorProto] of
    [opentensor/opentensor.proto] in wire format (line 23), and every
    descriptor object carries the offsets [serialized_start] and
    [serialized_end] of its own proto inside it. *)
Module serialized.

Definition serialized_pb : list byte := [
  x0a; x1b; x6f; x70; x65; x6e; x74; x65; x6e; x73; x6f; x72; x2f; x6f; x70; x65;
  x6e; x74; x65; x6e; x73; x6f; x72; x2e; x70; x72; x6f; x74; x6f; x22; x62; x0a;
  x0c; x53; x79; x6e; x61; x70; x73; x65; x42; x61; x74; x63; x68; x12; x0f; x0a;
  x07; x76; x65; x72; x73; x69; x6f; x6e; x18; x01; x20; x01; x28; x02; x12; x12;
  x0a; x0a; x6e; x65; x75; x72; x6f; x6e; x5f; x6b; x65; x79; x18; x02; x20; x01;
  x28; x09; x12; x11; x0a; x09; x73; x69; x67; x6e; x61; x74; x75; x72; x65; x18;
  x03; x20; x01; x28; x0c; x12; x1a; x0a; x08; x73; x79; x6e; x61; x70; x73; x65;
  x73; x18; x04; x20; x03; x28; x0b; x32; x08; x2e; x53; x79; x6e; x61; x70; x73;
  x65; x22; xe4; x01; x0a; x07; x53; x79; x6e; x61; x70; x73; x65; x12; x0f; x0a;
  x07; x76; x65; x72; x73; x69; x6f; x6e; x18; x01; x20; x01; x28; x02; x12; x12;
  x0a; x0a; x6e; x65; x75; x72; x6f; x6e; x5f; x6b; x65; x79; x18; x02; x20; x01;
  x28; x09; x12; x11; x0a; x09; x73; x69; x67; x6e; x61; x74; x75; x72; x65; x18;
  x03; x20; x01; x28; x0c; x12; x12; x0a; x0a; x62; x6c; x6f; x63; x6b; x5f; x68;
  x61; x73; x68; x18; x04; x20; x01; x28; x0c; x12; x15; x0a; x0d; x70; x72; x6f;
  x6f; x66; x5f; x6f; x66; x5f; x77; x6f; x72; x6b; x18; x05; x20; x01; x28; x0c;
  x12; x10; x0a; x08; x69; x64; x65; x6e; x74; x69; x74; x79; x18; x06; x20; x01;
  x28; x09; x12; x0f; x0a; x07; x61; x64; x64; x72; x65; x73; x73; x18; x07; x20;
  x01; x28; x09; x12; x0c; x0a; x04; x70; x6f; x72; x74; x18; x08; x20; x01; x28;
  x09; x12; x0e; x0a; x06; x6d; x5f; x70; x6f; x72; x74; x18; x09; x20; x01; x28;
  x09; x12; x19; x0a; x05; x69; x6e; x64; x65; x66; x18; x0a; x20; x01; x28; x0b;
  x32; x0a; x2e; x54; x65; x6e; x73; x6f; x72; x44; x65; x66; x12; x1a; x0a; x06;
  x6f; x75; x74; x64; x65; x66; x18; x0b; x20; x01; x28; x0b; x32; x0a; x2e; x54;
  x65; x6e; x73; x6f; x72; x44; x65; x66; x22; x97; x01; x0a; x0d; x54; x65; x6e;
  x73; x6f; x72; x4d; x65; x73; x73; x61; x67; x65; x12; x0f; x0a; x07; x76; x65;
  x72; x73; x69; x6f; x6e; x18; x01; x20; x01; x28; x02; x12; x12; x0a; x0a; x6e;
  x65; x75; x72; x6f; x6e; x5f; x6b; x65; x79; x18; x02; x20; x01; x28; x09; x12;
  x11; x0a; x09; x73; x6f; x75; x72; x63; x65; x5f; x69; x64; x18; x03; x20; x01;
  x28; x09; x12; x11; x0a; x09; x74; x61; x72; x67; x65; x74; x5f; x69; x64; x18;
  x04; x20; x01; x28; x09; x12; x0e; x0a; x06; x6e; x6f; x75; x6e; x63; x65; x18;
  x05; x20; x01; x28; x0c; x12; x11; x0a; x09; x73; x69; x67; x6e; x61; x74; x75;
  x72; x65; x18; x06; x20; x01; x28; x0c; x12; x18; x0a; x07; x74; x65; x6e; x73;
  x6f; x72; x73; x18; x07; x20; x03; x28; x0b; x32; x07; x2e; x54; x65; x6e; x73;
  x6f; x72; x22; x38; x0a; x06; x54; x65; x6e; x73; x6f; x72; x12; x0e; x0a; x06;
  x62; x75; x66; x66; x65; x72; x18; x01; x20; x01; x28; x0c; x12; x1e; x0a; x0a;
  x74; x65; x6e; x73; x6f; x72; x5f; x64; x65; x66; x18; x02; x20; x01; x28; x0b;
  x32; x0a; x2e; x54; x65; x6e; x73; x6f; x72; x44; x65; x66; x22; x34; x0a; x09;
  x54; x65; x6e; x73; x6f; x72; x44; x65; x66; x12; x0d; x0a; x05; x73; x68; x61;
  x70; x65; x18; x02; x20; x03; x28; x03; x12; x18; x0a; x05; x64; x74; x79; x70;
  x65; x18; x04; x20; x01; x28; x0e; x32; x09; x2e; x44; x61; x74; x61; x54; x79;
  x70; x65; x2a; x53; x0a; x08; x44; x61; x74; x61; x54; x79; x70; x65; x12; x0e;
  x0a; x0a; x44; x54; x5f; x46; x4c; x4f; x41; x54; x33; x32; x10; x00; x12; x0e;
  x0a; x0a; x44; x54; x5f; x46; x4c; x4f; x41; x54; x36; x34; x10; x01; x12; x0c;
  x0a; x08; x44; x54; x5f; x49; x4e; x54; x33; x32; x10; x02; x12; x0c; x0a; x08;
  x44; x54; x5f; x49; x4e; x54; x36; x34; x10; x03; x12; x0b; x0a; x07; x55; x4e;
  x4b; x4e; x4f; x57; x4e; x10; x04; x32; x5e; x0a; x0a; x4f; x70; x65; x6e; x74;
  x65; x6e; x73; x6f; x72; x12; x27; x0a; x03; x46; x77; x64; x12; x0e; x2e; x54;
  x65; x6e; x73; x6f; x72; x4d; x65; x73; x73; x61; x67; x65; x1a; x0e; x2e; x54;
  x65; x6e; x73; x6f; x72; x4d; x65; x73; x73; x61; x67; x65; x22; x00; x12; x27;
  x0a; x03; x42; x77; x64; x12; x0e; x2e; x54; x65; x6e; x73; x6f; x72; x4d; x65;
  x73; x73; x61; x67; x65; x1a; x0e; x2e; x54; x65; x6e; x73; x6f; x72; x4d; x65;
  x73; x73; x61; x67; x65; x22; x00; x32; x35; x0a; x09; x4d; x65; x74; x61; x67;
  x72; x61; x70; x68; x12; x28; x0a; x06; x47; x6f; x73; x73; x69; x70; x12; x0d;
  x2e; x53; x79; x6e; x61; x70; x73; x65; x42; x61; x74; x63; x68; x1a; x0d; x2e;
  x53; x79; x6e; x61; x70; x73; x65; x42; x61; x74; x63; x68; x22; x00; x62; x06;
  x70; x72; x6f; x74; x6f; x33
].

(** [serialized_start] and [serialized_end] of the message descriptors, in
    the order of their registration (lines 387-391). *)
Definition message_offsets : list (string * nat * nat) :=
  [ ("SynapseBatch"%string, 31%nat, 129%nat);
    ("Synapse"%string, 132%nat, 360%nat);
    ("TensorMessage"%string, 363%nat, 514%nat);
    ("Tensor"%string, 516%nat, 572%nat);
    ("TensorDef"%string, 574%nat, 626%nat) ].

(** Those of [_DATATYPE], [_OPENTENSOR] and [_METAGRAPH]. *)
Definition enum_offsets : list (string * nat * nat) :=
  [ ("DataType"%string, 628%nat, 711%nat) ].

Definition service_offsets : list (string * nat * nat) :=
  [ ("Opentensor"%string, 713%nat, 807%nat);
    ("Metagraph"%string, 809%nat, 862%nat) ].

(** [serialized_pb[start:end]]. *)
Definition slice (start stop : nat) (buffer : list byte) : list byte :=
  firstn (stop - start) (skipn start buffer).

End serialized.

(** ** Reading a file descriptor proto

    The messages of [google/protobuf/descriptor.proto] that
    [serialized_pb] is made of, with the fields the descriptor objects
    keep, and their parsers over the wire codec: [name = 1] everywhere,
    [number = 3], [label = 4], [type = 5] and [type_name = 6] in a field,
    [field = 2] in a message, [value = 2] and [number = 2] in an enum,
    [method = 2], [input_type = 2] and [output_type = 3] in a service,
    [package = 2], [message_type = 4], [enum_type = 5], [service = 6] and
    [syntax = 12] in a file. *)
Module descriptor_pb2.
Import wire.
Local Open Scope wire_scope.

Record FieldDescriptorProto := {
  fp_name : string;
  fp_number : Z;
  fp_label : Z;
  fp_type : Z;
  fp_type_name : string
}.

Record DescriptorProto := {
  dp_name : string;
  dp_field : list FieldDescriptorProto
}.

Record EnumDescriptorProto := {
  ep_name : string;
  ep_value : list (string * Z)
}.

Record ServiceDescriptorProto := {
  sp_name : string;
  sp_method : list (string * string * string)
}.

Record FileDescriptorProto := {
  name : string;
  package : string;
  message_type : list DescriptorProto;
  enum_type : list EnumDescriptorProto;
  service : list ServiceDescriptorProto;
  syntax : string
}.

(** A string field: the payload, which must be UTF-8. *)
Definition str (data : list byte) : res string :=
  value <- _ConvertToUnicode data ;;
  Ok (string_of_list_byte value).

(** Parsing a message from its default through the decoder of its
    fields. *)
Definition parse {T} (merge : T -> field -> res T) (default : T) (serialized : list byte)
  : res T :=
  fs <- Fields serialized ;;
  merge_fields merge fs default.

Definition FieldDescriptorProto_merge (self : FieldDescriptorProto) (f : field)
  : res FieldDescriptorProto :=
  match f with
  | (1, LengthDelimited data) =>
      value <- str data ;;
      Ok {| fp_name := value; fp_number := fp_number self; fp_label := fp_label self;
            fp_type := fp_type self; fp_type_name := fp_type_name self |}
  | (3, Varint value) =>
      Ok {| fp_name := fp_name self; fp_number := signed 32 value;
            fp_label := fp_label self; fp_type := fp_type self;
            fp_type_name := fp_type_name self |}
  | (4, Varint value) =>
      Ok {| fp_name := fp_name self; fp_number := fp_number self;
            fp_label := signed 32 value; fp_type := fp_type self;
            fp_type_name := fp_type_name self |}
  | (5, Varint value) =>
      Ok {| fp_name := fp_name self; fp_number := fp_number self;
            fp_label := fp_label self; fp_type := signed 32 value;
            fp_type_name := fp_type_name self |}
  | (6, LengthDelimited data) =>
      value <- str data ;;
      Ok {| fp_name := fp_name self; fp_number := fp_number self;
            fp_label := fp_label self; fp_type := fp_type self;
            fp_type_name := value |}
  | _ => Ok self
  end.

Definition FieldDescriptorProto_FromString : list byte -> res FieldDescriptorProto :=
  parse FieldDescriptorProto_merge
    {| fp_name := ""; fp_number := 0; fp_label := 0; fp_type := 0; fp_type_name := "" |}.

Definition DescriptorProto_merge (self : DescriptorProto) (f : field)
  : res DescriptorProto :=
  match f with
  | (1, LengthDelimited data) =>
      value <- str data ;;
      Ok {| dp_name := value; dp_field := dp_field self |}
  | (2, LengthDelimited data) =>
      element <- FieldDescriptorProto_FromString data ;;
      Ok {| dp_name := dp_name self; dp_field := dp_field self ++ [element] |}
  | _ => Ok self
  end.

Definition DescriptorProto_FromString : list byte -> res DescriptorProto :=
  parse DescriptorProto_merge {| dp_name := ""; dp_field := [] |}.

Definition EnumValueDescriptorProto_merge (self : string * Z) (f : field)
  : res (string * Z) :=
  match f with
  | (1, LengthDelimited data) => value <- str data ;; Ok (value, snd self)
  | (2, Varint value) => Ok (fst self, signed 32 value)
  | _ => Ok self
  end.

Definition EnumDescriptorProto_merge (self : EnumDescriptorProto) (f : field)
  : res EnumDescriptorProto :=
  match f with
  | (1, LengthDelimited data) =>
      value <- str data ;;
      Ok {| ep_name := value; ep_value := ep_value self |}
  | (2, LengthDelimited data) =>
      element <- parse EnumValueDescriptorProto_merge (""%string, 0) data ;;
      Ok {| ep_name := ep_name self; ep_value := ep_value self ++ [element] |}
  | _ => Ok self
  end.

Definition EnumDescriptorProto_FromString : list byte -> res EnumDescriptorProto :=
  parse EnumDescriptorProto_merge {| ep_name := ""; ep_value := [] |}.

Definition MethodDescriptorProto_merge (self : string * string * string) (f : field)
  : res (string * string * string) :=
  match f with
  | (1, LengthDelimited data) =>
      value <- str data ;; Ok (value, snd (fst self), snd self)
  | (2, LengthDelimited data) =>
      value <- str data ;; Ok (fst (fst self), value, snd self)
  | (3, LengthDelimited data) =>
      value <- str data ;; Ok (fst (fst self), snd (fst self), value)
  | _ => Ok self
  end.

Definition ServiceDescriptorProto_merge (self : ServiceDescriptorProto) (f : field)
  : res ServiceDescriptorProto :=
  match f with
  | (1, LengthDelimited data) =>
      value <- str data ;;
      Ok {| sp_name := value; sp_method := sp_method self |}
  | (2, LengthDelimited data) =>
      element <- parse MethodDescriptorProto_merge (""%string, ""%string, ""%string) data ;;
      Ok {| sp_name := sp_name self; sp_method := sp_method self ++ [element] |}
  | _ => Ok self
  end.

Definition ServiceDescriptorProto_FromString : list byte -> res ServiceDescriptorProto :=
  parse ServiceDescriptorProto_merge {| sp_name := ""; sp_method := [] |}.

Definition FileDescriptorProto_merge (self : FileDescriptorProto) (f : field)
  : res FileDescriptorProto :=
  match f with
  | (1, LengthDelimited data) =>
      value <- str data ;;
      Ok {| name := value; package := package self; message_type := message_type self;
            enum_type := enum_type self; service := service self; syntax := syntax self |}
  | (2, LengthDelimited data) =>
      value <- str data ;;
      Ok {| name := name self; package := value; message_type := message_type self;
            enum_type := enum_type self; service := service self; syntax := syntax self |}
  | (4, LengthDelimited data) =>
      element <- DescriptorProto_FromString data ;;
      Ok {| name := name self; package := package self;
            message_type := message_type self ++ [element];
            enum_type := enum_type self; service := service self; syntax := syntax self |}
  | (5, LengthDelimited data) =>
      element <- EnumDescriptorProto_FromString data ;;
      Ok {| name := name self; package := package self; message_type := message_type self;
            enum_type := enum_type self ++ [element];
            service := service self; syntax := syntax self |}
  | (6, LengthDelimited data) =>
      element <- ServiceDescriptorProto_FromString data ;;
      Ok {| name := name self; package := package self; message_type := message_type self;
            enum_type := enum_type self; service := service self ++ [element];
            syntax := syntax self |}
  | (12, LengthDelimited data) =>
      value <- str data ;;
      Ok {| name := name self; package := package self; message_type := message_type self;
            enum_type := enum_type self; service := service self; syntax := value |}
  | _ => Ok self
  end.

Definition FileDescriptorProto_FromString : list byte -> res FileDescriptorProto :=
  parse FileDescriptorProto_merge
    {| name := ""; package := ""; message_type := []; enum_type := [];
       service := []; syntax := "" |}.

(** *** The protos of the descriptor objects

    What [CopyToProto] gives for the descriptor objects of the module, on
    the fields above.  The full name of a referenced type is the package,
    a dot and the name. *)
Definition type_name_of (package : string) (reference : option string) : string :=
  match reference with
  | Some n => (package ++ "." ++ n)%string
  | None => ""%string
  end.

Definition FieldDescriptor_proto (package : string) (f : descriptor.FieldDescriptor)
  : FieldDescriptorProto :=
  {| fp_name := descriptor.name f;
     fp_number := descriptor.number f;
     fp_label := descriptor.label f;
     fp_type := descriptor.type f;
     fp_type_name :=
       match descriptor.message_type f with
       | Some n => type_name_of package (Some n)
       | None => type_name_of package (descriptor.enum_type f)
       end |}.

Definition Descriptor_proto (package : string) (d : descriptor.Descriptor)
  : DescriptorProto :=
  {| dp_name := descriptor.d_name d;
     dp_field := map (FieldDescriptor_proto package) (descriptor.fields d) |}.

Definition EnumDescriptor_proto (e : descriptor.EnumDescriptor) : EnumDescriptorProto :=
  {| ep_name := descriptor.e_name e;
     ep_value := descriptor.enum_signature e |}.

Definition ServiceDescriptor_proto (package : string) (s : descriptor.ServiceDescriptor)
  : ServiceDescriptorProto :=
  {| sp_name := descriptor.s_name s;
     sp_method :=
       map (fun m => (descriptor.m_name m,
                      type_name_of package (Some (descriptor.input_type m)),
                      type_name_of package (Some (descriptor.output_type m))))
           (descriptor.methods s) |}.

Definition FileDescriptor_proto (f : descriptor.FileDescriptor) : FileDescriptorProto :=
  {| name := descriptor.f_name f;
     package := descriptor.package f;
     message_type :=
       map (fun kv => Descriptor_proto (descriptor.package f) (snd kv))
           (descriptor.message_types_by_name f);
     enum_type :=
       map (fun kv => EnumDescriptor_proto (snd kv)) (descriptor.enum_types_by_name f);
     service :=
       map (fun kv => ServiceDescriptor_proto (descriptor.package f) (snd kv))
           (descriptor.services_by_name f);
     syntax := descriptor.syntax f |}.

End descriptor_pb2.

(** ** The schema as the specification words it

    The field lists, the enum values and the RPC methods of section 6 of
    the specification, in the vocabulary of [descriptor.field_signature],
    to be compared with what the descriptors of the module declare. *)
Module spec.
Import descriptor.
Local Open Scope string_scope.

Definition TensorMessage : list (string * Cardinality * FieldType) :=
  [ ("version", singular, float32);
    ("neuron_key", singular, string_);
    ("source_id", singular, string_);
    ("target_id", singular, string_);
    ("nonce", singular, bytes);
    ("signature", singular, bytes);
    ("tensors", repeated, message "Tensor") ].

Definition Synapse : list (string * Cardinality * FieldType) :=
  [ ("version", singular, float32);
    ("neuron_key", singular, string_);
    ("signature", singular, bytes);
    ("block_hash", singular, bytes);
    ("proof_of_work", singular, bytes);
    ("identity", singular, string_);
    ("address", singular, string_);
    ("port", singular, string_);
    ("metagraph_port", singular, string_);
    ("input_def", singular, message "TensorDef");
    ("output_def", singular, message "TensorDef") ].

Definition TensorDef : list (string * Cardinality * FieldType) :=
  [ ("shape", repeated, int64);
    ("dtype", singular, enum "DataType") ].

Definition DataType : list (string * Z) :=
  [ ("FLOAT32", 0); ("FLOAT64", 1); ("INT32", 2); ("INT64", 3); ("UNKNOWN", 4) ].

Definition rpc : list (string * string * string) :=
  [ ("Fwd", "TensorMessage", "TensorMessage");
    ("Bwd", "TensorMessage", "TensorMessage");
    ("Gossip", "SynapseBatch", "SynapseBatch") ].

End spec.

(** * Properties *)

(** ** The schema the descriptors declare *)
Module schema_facts.
Import descriptor opentensor_pb2.
Local Open Scope string_scope.

(** The field numbers of every message grow with the declaration order, so
    the order in which the present fields are written is the declaration
    order. *)
Lemma field_numbers_ascending :
  map (fun kv => map number (fields (snd kv))) (message_types_by_name DESCRIPTOR)
  = [ [1; 2; 3; 4]; [1; 2; 3; 4; 5; 6; 7; 8; 9; 10; 11];
      [1; 2; 3; 4; 5; 6; 7]; [1; 2]; [2; 4] ].
Proof. reflexivity. Qed.

(** Every message and enum a field or a method refers to is registered in
    the file descriptor under that name. *)
Lemma references_resolve :
  dict_get (message_types_by_name DESCRIPTOR) "Synapse" = Some _SYNAPSE
  /\ dict_get (message_types_by_name DESCRIPTOR) "SynapseBatch" = Some _SYNAPSEBATCH
  /\ dict_get (message_types_by_name DESCRIPTOR) "TensorMessage" = Some _TENSORMESSAGE
  /\ dict_get (message_types_by_name DESCRIPTOR) "Tensor" = Some _TENSOR
  /\ dict_get (message_types_by_name DESCRIPTOR) "TensorDef" = Some _TENSORDEF
  /\ dict_get (enum_types_by_name DESCRIPTOR) "DataType" = Some _DATATYPE.
Proof. repeat split; reflexivity. Qed.

(** C4, as stated, fails: the fifth field of [TensorMessage] is not named
    [nonce], and the message has no field of that name. *)
Lemma TensorMessage_has_no_nonce_field :
  message_signature _TENSORMESSAGE <> map Some spec.TensorMessage
  /\ fields_by_name _TENSORMESSAGE "nonce" = None.
Proof. split; [ discriminate | reflexivity ]. Qed.

(** C4 (amended): the TensorMessage message consists of exactly the fields,
    in order, version (float32), neuron_key (string), source_id (string),
    target_id (string), nounce (bytes), signature (bytes), tensors (repeated
    Tensor); the nonce field is named [nounce] and is the fifth field, with
    field number 5. *)
Theorem TensorMessage_fields :
  message_signature _TENSORMESSAGE
  = map Some
      [ ("version", singular, float32);
        ("neuron_key", singular, string_);
        ("source_id", singular, string_);
        ("target_id", singular, string_);
        ("nounce", singular, bytes);
        ("signature", singular, bytes);
        ("tensors", repeated, message "Tensor") ]
  /\ option_map (fun f => (name f, index f, number f)) (nth_error (fields _TENSORMESSAGE) 4)
     = Some ("nounce", 4, 5).
Proof. split; reflexivity. Qed.

(** C5, as stated, fails: the ninth to eleventh fields of [Synapse] do not
    carry the names [metagraph_port], [input_def] and [output_def], and the
    message has no field of any of these names. *)
Lemma Synapse_has_no_metagraph_port_field :
  message_signature _SYNAPSE <> map Some spec.Synapse
  /\ fields_by_name _SYNAPSE "metagraph_port" = None
  /\ fields_by_name _SYNAPSE "input_def" = None
  /\ fields_by_name _SYNAPSE "output_def" = None.
Proof. split; [ discriminate | repeat split; reflexivity ]. Qed.

(** C5 (amended): the Synapse message consists of exactly the fields, in
    order, version (float32), neuron_key (string), signature (bytes),
    block_hash (bytes), proof_of_work (bytes), identity (string), address
    (string), port (string), m_port (string), indef (TensorDef), outdef
    (TensorDef), with those field names. *)
Theorem Synapse_fields :
  message_signature _SYNAPSE
  = map Some
      [ ("version", singular, float32);
        ("neuron_key", singular, string_);
        ("signature", singular, bytes);
        ("block_hash", singular, bytes);
        ("proof_of_work", singular, bytes);
        ("identity", singular, string_);
        ("address", singular, string_);
        ("port", singular, string_);
        ("m_port", singular, string_);
        ("indef", singular, message "TensorDef");
        ("outdef", singular, message "TensorDef") ].
Proof. reflexivity. Qed.

(** C7, as stated, fails: the values of the enum behind [dtype] are not
    named [FLOAT32], [FLOAT64], [INT32] and [INT64]. *)
Lemma DataType_has_no_FLOAT32_value :
  enum_signature _DATATYPE <> spec.DataType
  /\ values_by_name _DATATYPE "FLOAT32" = None.
Proof. split; [ discriminate | reflexivity ]. Qed.

(** C7 (amended): the TensorDef message has a shape field of repeated int64
    and a dtype field of the enum DataType, whose values are DT_FLOAT32=0,
    DT_FLOAT64=1, DT_INT32=2, DT_INT64=3, UNKNOWN=4. *)
Theorem TensorDef_fields :
  message_signature _TENSORDEF = map Some spec.TensorDef
  /\ option_map enum_signature (dict_get (enum_types_by_name DESCRIPTOR) "DataType")
     = Some [ ("DT_FLOAT32", 0); ("DT_FLOAT64", 1); ("DT_INT32", 2);
              ("DT_INT64", 3); ("UNKNOWN", 4) ]
  /\ map snd (enum_signature _DATATYPE) = map snd spec.DataType
  /\ (DT_FLOAT32, DT_FLOAT64, DT_INT32, DT_INT64, UNKNOWN) = (0, 1, 2, 3, 4).
Proof. repeat split; reflexivity. Qed.

(** C8: the services of the file offer exactly three methods, Fwd and Bwd
    from TensorMessage to TensorMessage and Gossip from SynapseBatch to
    SynapseBatch; Fwd and Bwd belong to the service Opentensor and Gossip
    to the service Metagraph. *)
Theorem rpc_surface_is_Fwd_Bwd_Gossip :
  rpc_surface = spec.rpc
  /\ map (fun kv => (fst kv, map m_name (methods (snd kv)))) (services_by_name DESCRIPTOR)
     = [ ("Opentensor", ["Fwd"; "Bwd"]); ("Metagraph", ["Gossip"]) ]
  /\ Forall (fun sig => dict_get (message_types_by_name DESCRIPTOR) (snd (fst sig)) <> None
                        /\ dict_get (message_types_by_name DESCRIPTOR) (snd sig) <> None)
       rpc_surface.
Proof.
  split; [ reflexivity | split; [ reflexivity | ] ].
  repeat constructor; discriminate.
Qed.

End schema_facts.

(** ** The training example *)
Module cifar_facts.
Import cifar.

Lemma saves_app (t u : trace) : saves (t ++ u) = (saves t + saves u)%nat.
Proof. unfold saves. now rewrite filter_app, length_app. Qed.

Ltac count_saves :=
  rewrite ?saves_app; unfold saves; simpl.

Ltac now_saves := unfold saves; simpl; lia.

Lemma trained_app (t u : trace) : trained (t ++ u) = trained t || trained u.
Proof. unfold trained. apply existsb_app. Qed.

(** [0.0 / n] is [0.0] for a non-zero [n]. *)
Lemma truediv_zero (n : Z) (t : trace) :
  n <> 0 -> truediv zero n t = (t, Return zero).
Proof.
  intros Hn. unfold truediv, zero.
  destruct (Z.eqb_spec n 0) as [E | _]; [ contradiction | ].
  reflexivity.
Qed.

(** Dividing leaves the trace alone and never leaves the loop running. *)
Lemma truediv_cases (x : pyfloat) (n : Z) (t : trace) :
  (exists y, truediv x n t = (t, Return y))
  \/ truediv x n t = (t, Raise ZeroDivisionError).
Proof.
  unfold truediv. destruct (n =? 0); [ right | left; eexists ]; reflexivity.
Qed.

Lemma flt_zero_zero : flt zero zero = false.
Proof. reflexivity. Qed.

Section main.

Context {Hparams Config Model Optimizer Toolbox Image Outputs : Type}.
Variable MnistSynapse : option Model.
Variable bittensor_Config : Hparams -> option Config.
Variable bittensor_init : Config -> option unit.
Variable bittensor_serve : Model -> option unit.
Variable bittensor_start : option unit.
Variable metagraph_stop : option unit.
Variable axon_stop : option unit.
Variable ModelToolbox : string -> option Toolbox.
Variable toolbox_load_model :
  Toolbox -> Model -> string -> Optimizer -> option (Model * Optimizer * Z * pyfloat).
Variable toolbox_save_model :
  Toolbox -> Model -> Z -> Optimizer -> pyfloat -> option unit.
Variable hparams_load_model : Config -> option string.
Variable CIFAR10 : Toolbox -> bool -> option (list (Image * Z)).
Variable SGD : Model -> option Optimizer.
Variable train : Model -> Optimizer -> list (Image * Z) -> Z -> option (Model * Optimizer).
Variable forward : Model -> list Image -> list Z -> option Outputs.
Variable max_logit : Outputs -> list Z.

Let test := test forward max_logit.
Let test_loop := test_loop forward max_logit.
Let try_body := try_body toolbox_save_model train forward max_logit.
Let while_true :=
  while_true metagraph_stop axon_stop toolbox_save_model train forward max_logit.
Let main :=
  main MnistSynapse bittensor_Config bittensor_init bittensor_serve bittensor_start
    metagraph_stop axon_stop ModelToolbox toolbox_load_model toolbox_save_model
    hparams_load_model CIFAR10 SGD train forward max_logit.

(** The loop of [test] hands [loss] on untouched, whatever the batches. *)
Lemma test_loop_keeps_loss (model : Model) (testloader : list (list (Image * Z))) :
  forall loss correct t,
    (exists correct', test_loop model testloader loss correct t = (t, Return (loss, correct')))
    \/ test_loop model testloader loss correct t = (t, Raise ExternalError).
Proof.
  induction testloader as [ | batch rest IH ]; intros loss correct t; simpl.
  - left. now exists correct.
  - unfold test_loop, cifar.test_loop; fold (cifar.test_loop forward max_logit).
    unfold bind, call.
    destruct (forward model (map fst batch) (map snd batch)) as [ outputs | ]; simpl.
    + apply IH.
    + now right.
Qed.

Lemma test_loop_returns (model : Model) (testloader : list (list (Image * Z))) :
  (forall images labels, forward model images labels <> None) ->
  forall loss correct t,
    exists correct', test_loop model testloader loss correct t = (t, Return (loss, correct')).
Proof.
  intros Hfwd.
  induction testloader as [ | batch rest IH ]; intros loss correct t; simpl.
  - now exists correct.
  - unfold test_loop, cifar.test_loop; fold (cifar.test_loop forward max_logit).
    unfold bind, call.
    destruct (forward model (map fst batch) (map snd batch)) as [ outputs | ] eqn:E; simpl.
    + apply IH.
    + now apply Hfwd in E.
Qed.

(** What [test] can do: return a zero loss, or raise; the trace is left
    alone. *)
Lemma test_cases (model : Model) (testset : list (Image * Z)) (t : trace) :
  (exists accuracy, test model testset t = (t, Return (zero, accuracy)))
  \/ (exists e, test model testset t = (t, Raise e)).
Proof.
  unfold test, cifar.test, bind.
  destruct (test_loop_keeps_loss model (DataLoader testset batch_size_test) zero zero t)
    as [ [correct' E] | E ]; fold test_loop; rewrite E.
  - destruct (Z.eq_dec (Z.of_nat (List.length testset)) 0) as [ Hn | Hn ].
    + right. exists ZeroDivisionError. unfold truediv. rewrite Hn. reflexivity.
    + rewrite (truediv_zero _ t Hn).
      destruct (truediv_cases (fmul 100 correct') (Z.of_nat (List.length testset)) t)
        as [ [y Ey] | Ey ]; rewrite Ey.
      * left. now exists y.
      * right. now eexists.
  - right. now eexists.
Qed.

Lemma test_returns_zero (model : Model) (testset : list (Image * Z)) (t : trace) :
  testset <> [] ->
  (forall images labels, forward model images labels <> None) ->
  exists accuracy, test model testset t = (t, Return (zero, accuracy)).
Proof.
  intros Hne Hfwd.
  unfold test, cifar.test, bind.
  destruct (test_loop_returns model (DataLoader testset batch_size_test) Hfwd zero zero t)
    as [correct' E]; fold test_loop; rewrite E.
  assert (Hn : Z.of_nat (List.length testset) <> 0)
    by (destruct testset; [ contradiction | simpl; lia ]).
  rewrite (truediv_zero _ t Hn).
  destruct (truediv_cases (fmul 100 correct') (Z.of_nat (List.length testset)) t)
    as [ [y Ey] | Ey ]; rewrite Ey.
  - now exists y.
  - unfold truediv in Ey. destruct (Z.eqb_spec (Z.of_nat (List.length testset)) 0);
      [ contradiction | discriminate ].
Qed.

(** One pass through the [try] block: it ends, it calls [save_model] at
    most once, not at all when [0.0 < best_test_loss] is false, and it
    leaves a [best_test_loss] that [0.0] no longer improves on. *)
Lemma try_body_spec (toolbox : Toolbox) (trainset testset : list (Image * Z))
    (l : locals) (t : trace) :
  exists t' r,
    try_body toolbox trainset testset l t = (t', r)
    /\ r <> Running
    /\ (saves t' <= saves t + 1)%nat
    /\ (flt zero (best_test_loss l) = false -> saves t' = saves t)
    /\ (forall l', r = Return l' -> flt zero (best_test_loss l') = false).
Proof.
  unfold try_body, cifar.try_body, bind, emit, call.
  destruct (train (model l) (optimizer l) trainset (epoch l)) as [ [model' optimizer'] | ];
    simpl.
  2:{ do 2 eexists. split; [ reflexivity | ].
      count_saves. repeat split; try discriminate; lia. }
  destruct (test_cases model' testset ((t ++ [Train (epoch l)]) ++ [Test]))
    as [ [accuracy E] | [e E] ]; fold test; rewrite E.
  2:{ do 2 eexists. split; [ reflexivity | ].
      count_saves. repeat split; try discriminate; lia. }
  destruct (flt zero (best_test_loss l)) eqn:Hlt.
  - destruct (toolbox_save_model toolbox model' (epoch l) optimizer' zero); simpl;
      do 2 eexists; (split; [ reflexivity | ]); count_saves;
      repeat split; try discriminate; try lia.
    intros l' [= <-]. reflexivity.
  - do 2 eexists. split; [ reflexivity | ]. count_saves.
    repeat split; try discriminate; try lia.
    intros l' [= <-]. exact Hlt.
Qed.

(** One turn of [while True]. *)
Lemma while_true_step (toolbox : Toolbox) (trainset testset : list (Image * Z))
    (fuel : nat) (l : locals) (t : trace) :
  while_true (S fuel) toolbox trainset testset l t
  = match try_body toolbox trainset testset l t with
    | (t', Return l') => while_true fuel toolbox trainset testset l' t'
    | (t', Raise _) =>
        match handler metagraph_stop axon_stop t' with
        | (t'', Return _) => (t'', Return tt)
        | (t'', Raise e) => (t'', Raise e)
        | (t'', Running) => (t'', Running)
        end
    | (t', Running) => (t', Running)
    end.
Proof.
  unfold while_true, try_body; simpl. unfold bind, try_except, ret.
  destruct (cifar.try_body toolbox_save_model train forward max_logit
              toolbox trainset testset l t) as [ t' [ l' | e | ] ]; try reflexivity.
  destruct (handler metagraph_stop axon_stop t') as [ t'' [ [] | e' | ] ]; reflexivity.
Qed.

Lemma handler_saves (t : trace) :
  saves (fst (handler metagraph_stop axon_stop t)) = saves t
  /\ snd (handler metagraph_stop axon_stop t) <> Running.
Proof.
  unfold handler, bind, emit, call, ret, raise.
  destruct metagraph_stop, axon_stop; simpl; count_saves; (split; [ lia | discriminate ]).
Qed.

(** The loop calls [save_model] at most once, and not at all once
    [0.0 < best_test_loss] is false. *)
Lemma while_true_saves (toolbox : Toolbox) (trainset testset : list (Image * Z)) :
  forall fuel l t,
    (saves (fst (while_true fuel toolbox trainset testset l t)) <= saves t + 1)%nat
    /\ (flt zero (best_test_loss l) = false ->
        saves (fst (while_true fuel toolbox trainset testset l t)) = saves t).
Proof.
  induction fuel as [ | fuel IH ]; intros l t.
  - simpl. split; [ lia | reflexivity ].
  - rewrite while_true_step.
    destruct (try_body_spec toolbox trainset testset l t)
      as (t' & r & E & Hrun & Hle & Heq & Hbest); rewrite E.
    destruct r as [ l' | e | ]; [ | | contradiction ].
    + destruct (IH l' t') as [ _ IH' ].
      rewrite (IH' (Hbest l' eq_refl)). split; [ lia | exact Heq ].
    + destruct (handler_saves t') as [ Hs _ ].
      destruct (handler metagraph_stop axon_stop t') as [ t'' [ [] | e' | ] ];
        simpl in *; rewrite Hs; (split; [ lia | exact Heq ]).
Qed.

(** [main] calls [save_model] at most once. *)
Lemma main_saves (fuel : nat) (hparams : Hparams) :
  (saves (fst (main fuel hparams [])) <= 1)%nat.
Proof.
  unfold main, cifar.main, bind, call, emit, load_local, ret, raise.
  destruct MnistSynapse as [ model | ]; simpl; [ | now_saves ].
  destruct (bittensor_Config hparams) as [ config | ]; simpl; [ | now_saves ].
  destruct (bittensor_init config); simpl; [ | now_saves ].
  destruct (bittensor_serve model); simpl; [ | now_saves ].
  destruct bittensor_start; simpl; [ | now_saves ].
  destruct (ModelToolbox "mnist") as [ toolbox | ]; simpl; [ | now_saves ].
  destruct (hparams_load_model config); simpl; [ now_saves | ].
  destruct (CIFAR10 toolbox true) as [ trainset | ]; simpl; [ | now_saves ].
  destruct (CIFAR10 toolbox false) as [ testset | ]; simpl; [ | now_saves ].
  destruct (SGD model) as [ optimizer | ]; simpl; [ | now_saves ].
  match goal with
  | |- context [ cifar.while_true _ _ _ _ _ _ _ _ ?tr ?te ?l ?t ] =>
      destruct (while_true_saves toolbox tr te fuel l t) as [ H _ ]
  end.
  exact H.
Qed.

(** C9: [test] never adds anything to the [loss] it divides and returns,
    so on a non-empty test set it returns the loss [0.0] whenever the model's
    forward passes return (and raises otherwise, returning no other loss);
    once [best_test_loss] is [0.0] the check [test_loss < best_test_loss] is
    false, and whatever the collaborators do and however long the loop is
    observed, [main] calls [save_model] at most once. *)
Theorem test_loss_is_zero_and_model_saved_at_most_once
    (model : Model) (testset : list (Image * Z)) (t : trace)
    (fuel : nat) (hparams : Hparams) :
  testset <> [] ->
  ((forall images labels, forward model images labels <> None) ->
   exists accuracy, test model testset t = (t, Return (zero, accuracy)))
  /\ (forall t' loss accuracy,
        test model testset t = (t', Return (loss, accuracy)) -> loss = zero)
  /\ flt zero zero = false
  /\ (saves (fst (main fuel hparams [])) <= 1)%nat.
Proof.
  intros Hne. split; [ | split; [ | split ] ].
  - intros Hfwd. now apply test_returns_zero.
  - intros t' loss accuracy E.
    destruct (test_cases model testset t) as [ [a Ea] | [e Ee] ]; fold test in E.
    + rewrite Ea in E. now injection E as _ <- _.
    + rewrite Ee in E. discriminate.
  - reflexivity.
  - apply main_saves.
Qed.

(** C10: when the option [load_model] is set, [main] ends in an exception
    before any training pass, whatever the collaborators do; and once the
    setup calls before line 57 have returned, the exception is
    [UnboundLocalError] for [optimizer]: the call of line 59 reads the local
    before line 76 binds it, so [load_model] itself is not reached. *)
Theorem load_model_reads_unbound_optimizer
    (fuel : nat) (hparams : Hparams) (path : string) :
  (forall config, bittensor_Config hparams = Some config ->
                  hparams_load_model config = Some path) ->
  trained (fst (main fuel hparams [])) = false
  /\ (exists e, snd (main fuel hparams []) = Raise e)
  /\ (forall model config toolbox,
        MnistSynapse = Some model ->
        bittensor_Config hparams = Some config ->
        bittensor_init config = Some tt ->
        bittensor_serve model = Some tt ->
        bittensor_start = Some tt ->
        ModelToolbox "mnist" = Some toolbox ->
        main fuel hparams []
        = ([Init; Serve; Start], Raise (UnboundLocalError "optimizer"))).
Proof.
  intros Hload. split; [ | split ].
  - unfold main, cifar.main, bind, call, emit, load_local, ret, raise.
    destruct MnistSynapse as [ model | ]; simpl; [ | reflexivity ].
    destruct (bittensor_Config hparams) as [ config | ] eqn:Hc; simpl; [ | reflexivity ].
    destruct (bittensor_init config); simpl; [ | reflexivity ].
    destruct (bittensor_serve model); simpl; [ | reflexivity ].
    destruct bittensor_start; simpl; [ | reflexivity ].
    destruct (ModelToolbox "mnist") as [ toolbox | ]; simpl; [ | reflexivity ].
    rewrite (Hload config eq_refl); reflexivity.
  - unfold main, cifar.main, bind, call, emit, load_local, ret, raise.
    destruct MnistSynapse as [ model | ]; simpl; [ | now eexists ].
    destruct (bittensor_Config hparams) as [ config | ] eqn:Hc; simpl; [ | now eexists ].
    destruct (bittensor_init config); simpl; [ | now eexists ].
    destruct (bittensor_serve model); simpl; [ | now eexists ].
    destruct bittensor_start; simpl; [ | now eexists ].
    destruct (ModelToolbox "mnist") as [ toolbox | ]; simpl; [ | now eexists ].
    rewrite (Hload config eq_refl); simpl. now eexists.
  - intros model config toolbox H1 H2 H3 H4 H5 H6.
    unfold main, cifar.main, bind, call, emit, load_local, ret, raise.
    rewrite H1, H2; simpl. rewrite H3; simpl. rewrite H4; simpl.
    rewrite H5; simpl. rewrite H6; simpl. rewrite (Hload config H2); reflexivity.
Qed.

End main.

(** C9 on the run of [cifar_run]: [test] returns the loss [0.0], and three
    turns of the loop save once at most. *)
Lemma test_loss_is_zero_and_model_saved_at_most_once_witness :
  cifar_run.testset <> []
  /\ (exists accuracy,
        cifar_run.test tt cifar_run.testset [] = ([], Return (zero, accuracy)))
  /\ (saves (fst (cifar_run.main None 3 tt [])) <= 1)%nat.
Proof.
  assert (Hne : cifar_run.testset <> []) by discriminate.
  split; [ exact Hne | ].
  destruct (test_loss_is_zero_and_model_saved_at_most_once
              (Some tt) (fun _ : unit => Some tt) (fun _ : unit => Some tt)
              (fun _ => Some tt) (Some tt) (Some tt) (Some tt)
              (fun _ => Some tt)
              (fun (_ : unit) _ _ (o : unit) => Some (tt, o, 0, zero))
              (fun _ _ _ _ _ => Some tt) (fun _ => None)
              (fun _ _ => Some cifar_run.testset) (fun _ => Some tt)
              (fun m o _ _ => Some (m, o)) cifar_run.forward cifar_run.max_logit
              tt cifar_run.testset [] 3%nat tt Hne) as (Hret & _ & _ & Hsave).
  split; [ apply Hret; discriminate | exact Hsave ].
Defined.

(** C10 on the run of [cifar_run] with [load_model] set to ["best.pt"]. *)
Lemma load_model_reads_unbound_optimizer_witness :
  cifar_run.main (Some "best.pt"%string) 5 tt []
  = ([Init; Serve; Start], Raise (UnboundLocalError "optimizer")).
Proof.
  refine (proj2 (proj2 (load_model_reads_unbound_optimizer
                   (Some tt) (fun _ : unit => Some tt) (fun _ : unit => Some tt)
                   (fun _ => Some tt) (Some tt) (Some tt) (Some tt)
                   (fun _ => Some tt)
                   (fun (_ : unit) _ _ (o : unit) => Some (tt, o, 0, zero))
                   (fun _ _ _ _ _ => Some tt) (fun _ => Some "best.pt"%string)
                   (fun _ _ => Some cifar_run.testset) (fun _ => Some tt)
                   (fun m o _ _ => Some (m, o)) cifar_run.forward cifar_run.max_logit
                   5%nat tt "best.pt"%string (fun _ _ => eq_refl)))
            tt tt tt eq_refl eq_refl eq_refl eq_refl eq_refl eq_refl).
Defined.

End cifar_facts.

(** ** The wire codec *)
Module wire_facts.
Import wire.
Local Open Scope wire_scope.

(** *** Bytes and bit masks *)

Lemma byte2int_range (b : byte) : 0 <= byte2int b < 256.
Proof.
  unfold byte2int. pose proof (Byte.to_N_bounded b). lia.
Qed.

Lemma byte2int_int2byte (z : Z) : 0 <= z < 256 -> byte2int (int2byte z) = z.
Proof.
  intros Hz. unfold byte2int, int2byte.
  destruct (Byte.of_N (Z.to_N z)) as [ b | ] eqn:E.
  - apply Byte.to_of_N in E. lia.
  - apply Byte.of_N_None_iff in E. lia.
Qed.

Lemma int2byte_byte2int (b : byte) : int2byte (byte2int b) = b.
Proof.
  unfold byte2int, int2byte. rewrite N2Z.id, Byte.of_to_N. reflexivity.
Qed.

Lemma land_0x7f (v : Z) : Z.land v 0x7f = v mod 128.
Proof. change 0x7f with (Z.ones 7). now rewrite Z.land_ones. Qed.

Lemma shiftr_7 (v : Z) : Z.shiftr v 7 = v / 128.
Proof. now rewrite Z.shiftr_div_pow2. Qed.

(** Below [2^s] and above it, [lor] adds. *)
Lemma lor_shiftl_add (a b s : Z) :
  0 <= s -> 0 <= a < 2 ^ s -> Z.lor a (Z.shiftl b s) = a + b * 2 ^ s.
Proof.
  intros Hs Ha.
  rewrite <- Z.lxor_lor, <- Z.add_nocarry_lxor, Z.shiftl_mul_pow2; auto.
  all: apply Z.bits_inj'; intros n Hn; rewrite Z.land_spec, Z.bits_0.
  all: destruct (Z.ltb_spec n s) as [ Hlt | Hge ].
  all: try (rewrite Z.shiftl_spec_low by lia; apply andb_false_r).
  all: destruct (Z.eq_dec a 0) as [ -> | Hnz ]; [ now rewrite Z.bits_0 | ].
  all: rewrite (Z.bits_above_log2 a n); [ reflexivity | lia | ].
  all: apply Z.log2_lt_pow2; try lia.
  all: apply Z.lt_le_trans with (2 ^ s); [ lia | apply Z.pow_le_mono_r; lia ].
Qed.

Lemma lor_0x80 (bits : Z) : 0 <= bits < 128 -> Z.lor 0x80 bits = 128 + bits.
Proof.
  intros H. rewrite Z.lor_comm.
  change 0x80 with (Z.shiftl 1 7).
  rewrite lor_shiftl_add by (change (2 ^ 7) with 128; lia).
  change (Z.shiftl 1 7) with 128. change (2 ^ 7) with 128. lia.
Qed.

Lemma land_0x80 (b : Z) :
  0 <= b < 256 -> Z.land b 0x80 = if b <? 128 then 0 else 128.
Proof.
  intros H. rewrite <- (byte2int_int2byte b H).
  destruct (int2byte b); reflexivity.
Qed.
(** *** Varints *)

(** The last byte of a varint: no continuation bit. *)
Lemma DecodeVarint_last (mask acc shift bits : Z) (rest : list byte) :
  0 <= bits < 128 -> 0 <= shift -> 0 <= acc < 2 ^ shift ->
  DecodeVarint_loop mask acc shift (int2byte bits :: rest)
  = Ok (Z.land (acc + bits * 2 ^ shift) mask, rest).
Proof.
  intros Hb Hs Ha. cbn [DecodeVarint_loop].
  rewrite byte2int_int2byte by lia.
  rewrite land_0x80 by lia.
  destruct (Z.ltb_spec bits 128); [ rewrite Z.eqb_refl | lia ].
  rewrite land_0x7f, Z.mod_small by lia.
  now rewrite lor_shiftl_add.
Qed.

(** A byte with the continuation bit. *)
Lemma DecodeVarint_more (mask acc shift bits : Z) (rest : list byte) :
  0 <= bits < 128 -> 0 <= shift -> 0 <= acc < 2 ^ shift ->
  DecodeVarint_loop mask acc shift (int2byte (Z.lor 0x80 bits) :: rest)
  = if 64 <=? shift + 7 then DecodeError TooManyBytes
    else DecodeVarint_loop mask (acc + bits * 2 ^ shift) (shift + 7) rest.
Proof.
  intros Hb Hs Ha. cbn [DecodeVarint_loop].
  rewrite lor_0x80 by lia.
  rewrite byte2int_int2byte by lia.
  rewrite land_0x80 by lia.
  destruct (Z.ltb_spec (128 + bits) 128); [ lia | change (128 =? 0) with false; cbv iota ].
  rewrite land_0x7f.
  replace ((128 + bits) mod 128) with bits
    by (rewrite Z.add_comm, <- (Z.mul_1_l 128) at 1;
        rewrite Z.mod_add, Z.mod_small; lia).
  now rewrite lor_shiftl_add.
Qed.

(** Decoding what the encoder loop wrote gives the number back: the
    seven-bit groups add up under their shifts. *)
Lemma DecodeVarint_loop_EncodeVarint_loop (mask : Z) (rest : list byte) :
  forall fuel bits value acc shift,
    0 <= bits < 128 -> 0 <= value < 2 ^ Z.of_nat fuel ->
    0 <= shift -> 0 <= acc < 2 ^ shift ->
    (bits + 128 * value) * 2 ^ shift < 2 ^ 64 ->
    DecodeVarint_loop mask acc shift (EncodeVarint_loop fuel bits value ++ rest)
    = Ok (Z.land (acc + (bits + 128 * value) * 2 ^ shift) mask, rest).
Proof.
  induction fuel as [ | fuel IH ]; intros bits value acc shift Hb Hv Hs Ha Hfit.
  - assert (value = 0) by (simpl in Hv; lia). subst value.
    simpl EncodeVarint_loop. cbn [app].
    rewrite DecodeVarint_last by assumption. do 3 f_equal. lia.
  - cbn [EncodeVarint_loop].
    destruct (Z.eqb_spec value 0) as [ -> | Hnz ].
    + cbn [app]. rewrite DecodeVarint_last by assumption. do 3 f_equal. lia.
    + cbn [app]. rewrite DecodeVarint_more by assumption.
      assert (Hpow : 2 ^ (shift + 7) = 128 * 2 ^ shift)
        by (rewrite Z.pow_add_r by lia; change (2 ^ 7) with 128; lia).
      assert (Hpos : 0 < 2 ^ shift) by (apply Z.pow_pos_nonneg; lia).
      assert (Hlt : shift + 7 < 64).
      { apply (Z.pow_lt_mono_r_iff 2); try lia; nia. }
      destruct (Z.leb_spec 64 (shift + 7)); [ lia | ].
      rewrite land_0x7f, shiftr_7.
      pose proof (Z.div_mod value 128 ltac:(lia)) as Hdm.
      pose proof (Z.mod_pos_bound value 128 ltac:(lia)) as Hmod.
      rewrite IH.
      * do 3 f_equal. rewrite Hpow. nia.
      * lia.
      * split; [ apply Z.div_pos; lia | ].
        apply Z.div_lt_upper_bound; [ lia | ].
        rewrite Nat2Z.inj_succ, Z.pow_succ_r in Hv by lia.
        assert (0 < 2 ^ Z.of_nat fuel) by (apply Z.pow_pos_nonneg; lia). lia.
      * lia.
      * rewrite Hpow. nia.
      * rewrite Hpow. nia.
Qed.


Lemma EncodeVarint_loop_nonempty (fuel : nat) (bits value : Z) :
  EncodeVarint_loop fuel bits value <> [].
Proof. destruct fuel; simpl; [ | destruct (value =? 0) ]; discriminate. Qed.

Lemma EncodeVarint_nonempty (value : Z) : EncodeVarint value <> [].
Proof. apply EncodeVarint_loop_nonempty. Qed.

(** The fuel of [EncodeVarint] covers the bits left after the first
    shift. *)
Lemma EncodeVarint_fuel (value : Z) :
  0 <= value -> 0 <= value / 128 < 2 ^ Z.of_nat (Z.to_nat (Z.log2 value)).
Proof.
  intros Hv. split; [ apply Z.div_pos; lia | ].
  rewrite Z2Nat.id by apply Z.log2_nonneg.
  destruct (Z.eq_dec value 0) as [ -> | Hnz ]; [ reflexivity | ].
  pose proof (Z.log2_spec value ltac:(lia)) as [ _ Hup ].
  rewrite Z.pow_succ_r in Hup by apply Z.log2_nonneg.
  apply Z.div_lt_upper_bound; lia.
Qed.

(** A varint of at most 64 bits is read back, and the buffer behind it is
    left. *)
Lemma DecodeVarint_EncodeVarint (value : Z) (rest : list byte) :
  0 <= value < 2 ^ 64 ->
  _DecodeVarint (EncodeVarint value ++ rest) = Ok (value, rest).
Proof.
  intros Hv. unfold _DecodeVarint, EncodeVarint.
  rewrite land_0x7f, shiftr_7.
  pose proof (Z.div_mod value 128 ltac:(lia)) as Hdm.
  pose proof (Z.mod_pos_bound value 128 ltac:(lia)) as Hmod.
  rewrite DecodeVarint_loop_EncodeVarint_loop;
    [ | lia | apply EncodeVarint_fuel; lia | lia
    | change (2 ^ 0) with 1; lia | change (2 ^ 0) with 1; lia ].
  do 2 f_equal.
  change (Z.shiftl 1 64 - 1) with (Z.ones 64).
  change (2 ^ 0) with 1.
  rewrite Z.land_ones, Z.mod_small by lia; lia.
Qed.

(** Without its last byte a varint is truncated. *)
Lemma DecodeVarint_loop_truncated (mask : Z) :
  forall fuel bits value acc shift,
    0 <= bits < 128 -> 0 <= value ->
    0 <= shift -> 0 <= acc < 2 ^ shift ->
    (bits + 128 * value) * 2 ^ shift < 2 ^ 64 ->
    DecodeVarint_loop mask acc shift (removelast (EncodeVarint_loop fuel bits value))
    = DecodeError Truncated.
Proof.
  induction fuel as [ | fuel IH ]; intros bits value acc shift Hb Hv Hs Ha Hfit.
  - reflexivity.
  - cbn [EncodeVarint_loop].
    destruct (Z.eqb_spec value 0) as [ -> | Hnz ]; [ reflexivity | ].
    change (?b :: ?l) with ([b] ++ l).
    rewrite removelast_app by apply EncodeVarint_loop_nonempty.
    cbn [app]. rewrite DecodeVarint_more by assumption.
    assert (Hpow : 2 ^ (shift + 7) = 128 * 2 ^ shift)
      by (rewrite Z.pow_add_r by lia; change (2 ^ 7) with 128; lia).
    assert (Hpos : 0 < 2 ^ shift) by (apply Z.pow_pos_nonneg; lia).
    assert (Hlt : shift + 7 < 64).
    { apply (Z.pow_lt_mono_r_iff 2); try lia; nia. }
    destruct (Z.leb_spec 64 (shift + 7)); [ lia | ].
    rewrite land_0x7f, shiftr_7.
    pose proof (Z.div_mod value 128 ltac:(lia)) as Hdm.
    pose proof (Z.mod_pos_bound value 128 ltac:(lia)) as Hmod.
    apply IH; try lia; try (apply Z.div_pos; lia); rewrite Hpow; nia.
Qed.

Lemma DecodeVarint_truncated (value : Z) :
  0 <= value < 2 ^ 64 ->
  _DecodeVarint (removelast (EncodeVarint value)) = DecodeError Truncated.
Proof.
  intros Hv. unfold _DecodeVarint, EncodeVarint.
  rewrite land_0x7f, shiftr_7.
  pose proof (Z.div_mod value 128 ltac:(lia)) as Hdm.
  pose proof (Z.mod_pos_bound value 128 ltac:(lia)) as Hmod.
  apply DecodeVarint_loop_truncated; change (2 ^ 0) with 1; lia.
Qed.


(** *** Tags and fields *)

Lemma PackTag_add (field_number wire_type : Z) :
  0 <= wire_type < 8 -> PackTag field_number wire_type = wire_type + field_number * 8.
Proof.
  intros Hw. unfold PackTag. rewrite Z.lor_comm.
  rewrite lor_shiftl_add by (change (2 ^ 3) with 8; lia).
  reflexivity.
Qed.

Lemma UnpackTag_PackTag (field_number wire_type : Z) :
  0 <= wire_type < 8 ->
  UnpackTag (PackTag field_number wire_type) = (field_number, wire_type).
Proof.
  intros Hw. rewrite PackTag_add by assumption. unfold UnpackTag.
  rewrite Z.shiftr_div_pow2 by lia. change 7 with (Z.ones 3).
  rewrite Z.land_ones by lia. change (2 ^ 3) with 8.
  f_equal.
  - rewrite Z.div_add, Z.div_small; lia.
  - rewrite Z.mod_add, Z.mod_small; lia.
Qed.

(** The tag of a field is read back. *)
Lemma DecodeVarint_TagBytes (field_number wire_type : Z) (rest : list byte) :
  0 < field_number < 2 ^ 61 -> 0 <= wire_type < 8 ->
  _DecodeVarint (TagBytes field_number wire_type ++ rest)
  = Ok (PackTag field_number wire_type, rest).
Proof.
  intros Hn Hw. unfold TagBytes.
  apply DecodeVarint_EncodeVarint.
  rewrite PackTag_add by assumption.
  change (2 ^ 64) with (8 * 2 ^ 61). lia.
Qed.

Lemma len_app (a b : list byte) : len (a ++ b) = len a + len b.
Proof. unfold len. rewrite length_app. lia. Qed.

Lemma len_nonneg (a : list byte) : 0 <= len a.
Proof. unfold len. lia. Qed.

Lemma take_app (data rest : list byte) :
  take (len data) (data ++ rest) = Ok (data, rest).
Proof.
  unfold take. rewrite len_app.
  pose proof (len_nonneg rest).
  destruct (Z.ltb_spec (len data + len rest) (len data)); [ lia | ].
  unfold len. rewrite Nat2Z.id.
  rewrite firstn_app, skipn_app, Nat.sub_diag, firstn_all, skipn_all.
  cbn [firstn skipn]. now rewrite app_nil_r.
Qed.

Lemma take_truncated (size : Z) (buffer : list byte) :
  len buffer < size -> take size buffer = DecodeError Truncated.
Proof.
  intros H. unfold take. now destruct (Z.ltb_spec (len buffer) size); [ | lia ].
Qed.

Lemma field_ok_number (n : Z) (v : WireValue) :
  field_ok (n, v) = true -> 0 < n < 2 ^ 61.
Proof.
  unfold field_ok. change (Z.shiftl 1 61) with (2 ^ 61).
  intros H. apply andb_prop in H as [ H _ ]. apply andb_prop in H as [ H1 H2 ].
  lia.
Qed.

Ltac read_tag n Hn :=
  unfold ReadField, write_field;
  rewrite <- ?app_assoc;
  rewrite DecodeVarint_TagBytes by (try exact Hn; unfold WIRETYPE_VARINT,
    WIRETYPE_FIXED64, WIRETYPE_LENGTH_DELIMITED, WIRETYPE_START_GROUP,
    WIRETYPE_END_GROUP, WIRETYPE_FIXED32; lia);
  cbn [bind];
  rewrite UnpackTag_PackTag by (unfold WIRETYPE_VARINT,
    WIRETYPE_FIXED64, WIRETYPE_LENGTH_DELIMITED, WIRETYPE_START_GROUP,
    WIRETYPE_END_GROUP, WIRETYPE_FIXED32; lia);
  destruct (Z.eqb_spec n 0) as [ ? | _ ]; [ lia | ];
  cbn [Z.eqb WIRETYPE_VARINT WIRETYPE_FIXED64 WIRETYPE_LENGTH_DELIMITED
       WIRETYPE_START_GROUP WIRETYPE_END_GROUP WIRETYPE_FIXED32 Pos.eqb].

(** Reading a field gives back what was written, and the buffer behind
    it. *)
Lemma ReadField_write_field (f : field) (rest : list byte) :
  field_ok f = true ->
  ReadField (write_field f ++ rest) = Ok (f, rest).
Proof.
  destruct f as [ n v ]. intros Hok.
  pose proof (field_ok_number n v Hok) as Hn.
  unfold field_ok in Hok. apply andb_prop in Hok as [ _ Hv ].
  destruct v as [ value | data | data | | | data ]; try discriminate; read_tag n Hn.
  - change (Z.shiftl 1 64) with (2 ^ 64) in Hv.
    rewrite DecodeVarint_EncodeVarint by lia. reflexivity.
  - apply Z.eqb_eq in Hv. rewrite <- Hv, take_app. reflexivity.
  - unfold size_ok in Hv. change (Z.shiftl 1 64) with (2 ^ 64) in Hv.
    pose proof (len_nonneg data).
    rewrite DecodeVarint_EncodeVarint by lia. cbn [bind].
    rewrite take_app. reflexivity.
  - apply Z.eqb_eq in Hv. rewrite <- Hv, take_app. reflexivity.
Qed.


Lemma TagBytes_nonempty (n w : Z) : TagBytes n w <> [].
Proof. apply EncodeVarint_nonempty. Qed.

Lemma write_field_nonempty (f : field) : write_field f <> [].
Proof.
  destruct f as [ n v ]; destruct v; cbn [write_field]; intros E;
    try apply app_eq_nil in E as [ E _ ]; exact (TagBytes_nonempty _ _ E).
Qed.

Lemma length_write_fields (fs : list field) :
  (List.length fs <= List.length (write_fields fs))%nat.
Proof.
  induction fs as [ | f fs IH ]; [ reflexivity | ].
  cbn [write_fields flat_map]. fold (write_fields fs).
  rewrite length_app. pose proof (write_field_nonempty f).
  destruct (write_field f); [ contradiction | ]. simpl. lia.
Qed.

(** One turn of the parse loop on a buffer that is not empty. *)
Lemma ReadFields_step (fuel depth : nat) (buffer : list byte) :
  buffer <> [] ->
  ReadFields (S fuel) depth buffer
  = (' (f, buffer') <- ReadField buffer ;;
     match snd f with
     | StartGroup => ReadFields fuel (S depth) buffer'
     | EndGroup =>
         match depth with
         | O => DecodeError UnexpectedEndGroup
         | S depth' => ReadFields fuel depth' buffer'
         end
     | _ =>
         fs <- ReadFields fuel depth buffer' ;;
         Ok (match depth with O => f :: fs | S _ => fs end)
     end).
Proof. destruct buffer; [ contradiction | reflexivity ]. Qed.

(** The parse loop reads back the fields that were written, in order, and
    goes on behind them. *)
Lemma ReadFields_write_fields (rest : list byte) :
  forall fs fuel,
    forallb field_ok fs = true ->
    (List.length (write_fields fs ++ rest) <= fuel)%nat ->
    ReadFields fuel 0 (write_fields fs ++ rest)
    = (r <- ReadFields (fuel - List.length fs) 0 rest ;; Ok (fs ++ r)).
Proof.
  induction fs as [ | f fs IH ]; intros fuel Hok Hfuel.
  - cbn [write_fields flat_map app List.length]. rewrite Nat.sub_0_r.
    destruct (ReadFields fuel 0 rest); reflexivity.
  - cbn [forallb] in Hok. apply andb_prop in Hok as [ Hf Hfs ].
    cbn [write_fields flat_map] in *. fold (write_fields fs) in *.
    rewrite <- app_assoc in *.
    pose proof (write_field_nonempty f) as Hne.
    destruct fuel as [ | fuel ].
    { rewrite length_app in Hfuel. destruct (write_field f); [ contradiction | ].
      simpl in Hfuel. lia. }
    rewrite ReadFields_step
      by (intros E; apply app_eq_nil in E as [ E _ ]; contradiction).
    rewrite ReadField_write_field by assumption. cbn [bind snd].
    assert (Hgroup : ReadFields fuel 0 (write_fields fs ++ rest)
                     = (r <- ReadFields (S fuel - List.length (f :: fs)) 0 rest ;;
                        Ok (fs ++ r))).
    { cbn [List.length Nat.sub]. apply IH; [ assumption | ].
      rewrite length_app in Hfuel. destruct (write_field f); [ contradiction | ].
      simpl in Hfuel. lia. }
    destruct f as [ n [ value | data | data | | | data ] ];
      try (unfold field_ok in Hf; rewrite andb_false_r in Hf; discriminate);
      cbn [snd]; rewrite Hgroup;
      destruct (ReadFields (S fuel - List.length (_ :: fs)) 0 rest); reflexivity.
Qed.

(** The fields of a serialization are the fields that were written. *)
Lemma Fields_write_fields (fs : list field) :
  forallb field_ok fs = true -> Fields (write_fields fs) = Ok fs.
Proof.
  intros Hok. unfold Fields.
  rewrite <- (app_nil_r (write_fields fs)) at 2.
  rewrite ReadFields_write_fields; [ | assumption | rewrite app_nil_r; lia ].
  destruct (_ - _)%nat; cbn [ReadFields bind]; now rewrite app_nil_r.
Qed.


(** *** Truncated input *)

Lemma len_removelast (data : list byte) :
  data <> [] -> len (removelast data) = len data - 1.
Proof.
  intros Hne. unfold len. rewrite removelast_firstn_len, length_firstn.
  destruct data; [ contradiction | cbn [List.length Nat.pred]; lia ].
Qed.

Lemma len_zero_nil (data : list byte) : len data <> 0 -> data <> [].
Proof. now intros H ->. Qed.

(** A field without its last byte keeps its tag and is not empty. *)
Lemma removelast_write_field_nonempty (f : field) :
  field_ok f = true -> removelast (write_field f) <> [].
Proof.
  destruct f as [ n v ]. intros Hok.
  unfold field_ok in Hok. apply andb_prop in Hok as [ _ Hv ].
  assert (Happ : forall value : list byte, value <> [] ->
            forall w, removelast (TagBytes n w ++ value) <> []).
  { intros value Hvalue w. rewrite removelast_app by assumption.
    intros E. apply app_eq_nil in E as [ E _ ]. now apply TagBytes_nonempty in E. }
  destruct v as [ value | data | data | | | data ]; try discriminate;
    cbn [write_field]; apply Happ.
  - apply EncodeVarint_nonempty.
  - apply Z.eqb_eq in Hv. apply len_zero_nil. lia.
  - intros E. apply app_eq_nil in E as [ E _ ]. now apply EncodeVarint_nonempty in E.
  - apply Z.eqb_eq in Hv. apply len_zero_nil. lia.
Qed.

(** A field without its last byte does not parse: the varint, the length
    or the payload behind the tag is cut short. *)
Lemma ReadField_truncated (f : field) :
  field_ok f = true ->
  ReadField (removelast (write_field f)) = DecodeError Truncated.
Proof.
  destruct f as [ n v ]. intros Hok.
  pose proof (field_ok_number n v Hok) as Hn.
  unfold field_ok in Hok. apply andb_prop in Hok as [ _ Hv ].
  destruct v as [ value | data | data | | | data ]; try discriminate;
    cbn [write_field].
  - rewrite removelast_app by apply EncodeVarint_nonempty. read_tag n Hn.
    change (Z.shiftl 1 64) with (2 ^ 64) in Hv.
    rewrite DecodeVarint_truncated by lia. reflexivity.
  - apply Z.eqb_eq in Hv.
    assert (Hne : data <> []) by (apply len_zero_nil; lia).
    rewrite removelast_app by assumption. read_tag n Hn.
    rewrite take_truncated by (rewrite len_removelast by assumption; lia).
    reflexivity.
  - unfold size_ok in Hv. change (Z.shiftl 1 64) with (2 ^ 64) in Hv.
    pose proof (len_nonneg data) as Hlen.
    rewrite removelast_app
      by (intros E; apply app_eq_nil in E as [ E _ ]; now apply EncodeVarint_nonempty in E).
    destruct data as [ | b data ].
    + change (removelast (EncodeVarint (len []) ++ [])) with (@nil byte).
      read_tag n Hn. reflexivity.
    + rewrite removelast_app by discriminate. read_tag n Hn.
      rewrite DecodeVarint_EncodeVarint by lia. cbn [bind].
      rewrite take_truncated by (rewrite len_removelast by discriminate; lia).
      reflexivity.
  - apply Z.eqb_eq in Hv.
    assert (Hne : data <> []) by (apply len_zero_nil; lia).
    rewrite removelast_app by assumption. read_tag n Hn.
    rewrite take_truncated by (rewrite len_removelast by assumption; lia).
    reflexivity.
Qed.

(** A serialization without its last byte does not parse. *)
Lemma Fields_truncated (fs : list field) :
  forallb field_ok fs = true -> fs <> [] ->
  Fields (removelast (write_fields fs)) = DecodeError Truncated.
Proof.
  intros Hok Hne.
  destruct (exists_last Hne) as (fs' & f & ->).
  rewrite forallb_app in Hok. apply andb_prop in Hok as [ Hfs' Hf ].
  cbn [forallb] in Hf. rewrite andb_true_r in Hf.
  unfold write_fields. rewrite flat_map_app. fold (write_fields fs').
  cbn [flat_map]. rewrite app_nil_r.
  rewrite removelast_app by apply write_field_nonempty.
  unfold Fields.
  rewrite ReadFields_write_fields by (assumption || lia).
  pose proof (length_write_fields fs') as Hlen.
  pose proof (removelast_write_field_nonempty f Hf) as Hx.
  rewrite length_app.
  destruct (removelast (write_field f)) as [ | b x ] eqn:Ex; [ contradiction | ].
  replace (List.length (write_fields fs') + List.length (b :: x) - List.length fs')%nat
    with (S (List.length (write_fields fs') + List.length x - List.length fs'))
    by (simpl; lia).
  rewrite ReadFields_step by discriminate.
  rewrite <- Ex, ReadField_truncated by assumption. reflexivity.
Qed.


(** *** Signed varints, packed scalars and floats *)

Lemma land_low_shiftl (a b s : Z) :
  0 <= s -> 0 <= a < 2 ^ s -> Z.land a (Z.shiftl b s) = 0.
Proof.
  intros Hs Ha. apply Z.bits_inj'; intros n Hn; rewrite Z.land_spec, Z.bits_0.
  destruct (Z.ltb_spec n s) as [ Hlt | Hge ].
  - rewrite Z.shiftl_spec_low by lia. apply andb_false_r.
  - destruct (Z.eq_dec a 0) as [ -> | Hnz ]; [ now rewrite Z.bits_0 | ].
    rewrite (Z.bits_above_log2 a n); [ reflexivity | lia | ].
    apply Z.log2_lt_pow2; try lia.
    apply Z.lt_le_trans with (2 ^ s); [ lia | apply Z.pow_le_mono_r; lia ].
Qed.

(** Flipping the sign bit [2^k] of a [k+1]-bit number. *)
Lemma lxor_signbit (u k : Z) :
  0 <= k -> 0 <= u < 2 ^ (k + 1) ->
  Z.lxor u (Z.shiftl 1 k) = if u <? 2 ^ k then u + 2 ^ k else u - 2 ^ k.
Proof.
  intros Hk Hu.
  assert (Hpow : 2 ^ (k + 1) = 2 * 2 ^ k) by (rewrite Z.pow_add_r; lia).
  assert (Hlow : forall a, 0 <= a < 2 ^ k -> Z.lxor a (Z.shiftl 1 k) = a + 2 ^ k).
  { intros a Ha. rewrite <- Z.add_nocarry_lxor by now apply land_low_shiftl.
    rewrite Z.shiftl_mul_pow2; lia. }
  destruct (Z.ltb_spec u (2 ^ k)) as [ Hlt | Hge ].
  - apply Hlow. lia.
  - replace u with ((u - 2 ^ k) + 2 ^ k) at 1 by lia.
    rewrite <- (Hlow (u - 2 ^ k)) by lia.
    now rewrite Z.lxor_assoc, Z.lxor_nilpotent, Z.lxor_0_r.
Qed.

Lemma unsigned64_range (value : Z) :
  int64_ok value = true -> 0 <= unsigned64 value < 2 ^ 64.
Proof.
  unfold int64_ok, unsigned64.
  change (Z.shiftl 1 63) with (2 ^ 63). change (Z.shiftl 1 64) with (2 ^ 64).
  change (2 ^ 64) with (2 * 2 ^ 63).
  intros H. apply andb_prop in H as [ H1 H2 ].
  destruct (Z.ltb_spec value 0); lia.
Qed.

Lemma int32_ok_int64_ok (value : Z) : int32_ok value = true -> int64_ok value = true.
Proof.
  unfold int32_ok, int64_ok.
  change (Z.shiftl 1 63) with (2 ^ 63). change (Z.shiftl 1 31) with (2 ^ 31).
  intros H. apply andb_prop in H as [ H1 H2 ].
  apply andb_true_intro. split; [ apply Z.leb_le | apply Z.ltb_lt ].
  - apply Z.le_trans with (- 2 ^ 31); [ | lia ]. apply -> Z.opp_le_mono.
    apply Z.pow_le_mono_r; lia.
  - apply Z.lt_le_trans with (2 ^ 31); [ lia | apply Z.pow_le_mono_r; lia ].
Qed.

(** An [int64] comes back from its 64-bit two's complement. *)
Lemma signed_64_unsigned64 (value : Z) :
  int64_ok value = true -> signed 64 (unsigned64 value) = value.
Proof.
  intros Hok. pose proof (unsigned64_range value Hok) as Hu.
  unfold signed. change (Z.shiftl 1 64 - 1) with (Z.ones 64).
  rewrite Z.land_ones, Z.mod_small by lia.
  change (64 - 1) with 63. rewrite lxor_signbit by (change (63 + 1) with 64; lia).
  change (Z.shiftl 1 63) with (2 ^ 63).
  unfold int64_ok, unsigned64 in *.
  change (Z.shiftl 1 63) with (2 ^ 63) in Hok.
  change (Z.shiftl 1 64) with (2 ^ 64) in *. change (2 ^ 64) with (2 * 2 ^ 63) in *.
  apply andb_prop in Hok as [ H1 H2 ].
  destruct (Z.ltb_spec value 0);
    match goal with |- context [ ?a <? ?b ] => destruct (Z.ltb_spec a b) end; lia.
Qed.

(** An [int32] comes back from the low 32 bits of its 64-bit two's
    complement. *)
Lemma signed_32_unsigned64 (value : Z) :
  int32_ok value = true -> signed 32 (unsigned64 value) = value.
Proof.
  intros Hok. unfold signed. change (Z.shiftl 1 32 - 1) with (Z.ones 32).
  rewrite Z.land_ones by lia.
  unfold int32_ok in Hok. change (Z.shiftl 1 31) with 2147483648 in Hok.
  apply andb_prop in Hok as [ H1 H2 ].
  assert (Hmod : unsigned64 value mod 2 ^ 32
                 = if value <? 0 then value + 4294967296 else value).
  { unfold unsigned64. change (Z.shiftl 1 64) with 18446744073709551616.
    change (2 ^ 32) with 4294967296.
    destruct (Z.ltb_spec value 0).
    - replace (value + 18446744073709551616)
        with (value + 4294967296 + 4294967295 * 4294967296) by lia.
      rewrite Z.mod_add by lia. apply Z.mod_small; lia.
    - apply Z.mod_small; lia. }
  rewrite Hmod. change (32 - 1) with 31.
  rewrite lxor_signbit
    by (change (2 ^ (31 + 1)) with 4294967296; destruct (Z.ltb_spec value 0); lia).
  change (Z.shiftl 1 31) with 2147483648. change (2 ^ 31) with 2147483648.
  destruct (Z.ltb_spec value 0);
    match goal with |- context [ ?a <? ?b ] => destruct (Z.ltb_spec a b) end; lia.
Qed.

Lemma DecodePacked_loop_step (fuel : nat) (bits : Z) (data : list byte) :
  data <> [] ->
  DecodePacked_loop (S fuel) bits data
  = (' (value, data') <- _DecodeVarint data ;;
     elements <- DecodePacked_loop fuel bits data' ;;
     Ok (signed bits value :: elements)).
Proof. destruct data; [ contradiction | reflexivity ]. Qed.

(** A packed payload of [int64] elements is read back element by
    element. *)
Lemma DecodePacked_loop_EncodeSignedVarint :
  forall value fuel,
    forallb int64_ok value = true ->
    (List.length (flat_map EncodeSignedVarint value) <= fuel)%nat ->
    DecodePacked_loop fuel 64 (flat_map EncodeSignedVarint value) = Ok value.
Proof.
  induction value as [ | element value IH ]; intros fuel Hok Hfuel.
  - destruct fuel; reflexivity.
  - cbn [forallb] in Hok. apply andb_prop in Hok as [ He Hv ].
    cbn [flat_map] in *.
    pose proof (EncodeVarint_nonempty (unsigned64 element)) as Hne.
    change (EncodeVarint (unsigned64 element)) with (EncodeSignedVarint element) in Hne.
    rewrite length_app in Hfuel.
    destruct fuel as [ | fuel ].
    { destruct (EncodeSignedVarint element); [ contradiction | simpl in Hfuel; lia ]. }
    rewrite DecodePacked_loop_step
      by (intros E; apply app_eq_nil in E as [ E _ ]; contradiction).
    change (EncodeSignedVarint element) with (EncodeVarint (unsigned64 element)).
    rewrite DecodeVarint_EncodeVarint by now apply unsigned64_range.
    cbn [bind].
    change (EncodeVarint (unsigned64 element)) with (EncodeSignedVarint element) in Hfuel.
    rewrite IH; [ | assumption | ].
    + cbn [bind]. now rewrite signed_64_unsigned64.
    + destruct (EncodeSignedVarint element); [ contradiction | simpl in Hfuel; lia ].
Qed.

Lemma DecodePacked_EncodeSignedVarint (value : list Z) :
  forallb int64_ok value = true ->
  DecodePacked 64 (flat_map EncodeSignedVarint value) = Ok value.
Proof.
  intros Hok. apply DecodePacked_loop_EncodeSignedVarint; [ assumption | lia ].
Qed.

Lemma len_pack_f (bits : Z) : len (pack_f bits) = 4.
Proof. reflexivity. Qed.

Lemma bits_bytes (bits : Z) :
  0 <= bits < 4294967296 ->
  bits mod 256 + 256 * (bits / 256 mod 256) + 65536 * (bits / 65536 mod 256)
  + 16777216 * (bits / 16777216 mod 256) = bits.
Proof.
  intros H.
  replace (bits / 65536) with (bits / 256 / 256)
    by (rewrite Z.div_div by lia; reflexivity).
  replace (bits / 16777216) with (bits / 256 / 256 / 256)
    by (rewrite !Z.div_div by lia; reflexivity).
  generalize (Z.div_mod bits 256 ltac:(lia)) (Z.mod_pos_bound bits 256 ltac:(lia)).
  generalize (bits mod 256). set (q1 := bits / 256). intros r0 E0 R0.
  generalize (Z.div_mod q1 256 ltac:(lia)) (Z.mod_pos_bound q1 256 ltac:(lia)).
  generalize (q1 mod 256). set (q2 := q1 / 256). intros r1 E1 R1.
  generalize (Z.div_mod q2 256 ltac:(lia)) (Z.mod_pos_bound q2 256 ltac:(lia)).
  generalize (q2 mod 256). set (q3 := q2 / 256). intros r2 E2 R2.
  rewrite (Z.mod_small q3 256) by lia. lia.
Qed.

(** A float that is a number and not negative zero is read back from its
    four bytes, and is zero only as the pattern 0. *)
Lemma FloatDecoder_pack_f (bits : Z) :
  float32_ok bits = true ->
  _FloatDecoder (pack_f bits) = Ok bits
  /\ float_is_zero bits = (bits =? 0).
Proof.
  unfold float32_ok, float_is_zero, is_nan. change (Z.shiftl 1 32) with 4294967296.
  intros H. apply andb_prop in H as [ H Hnz ]. apply andb_prop in H as [ H Hnan ].
  apply andb_prop in H as [ H0 H1 ].
  apply negb_true_iff in Hnz. rewrite Hnz, orb_false_r.
  split; [ | reflexivity ].
  unfold pack_f, _FloatDecoder.
  rewrite !byte2int_int2byte by (apply Z.mod_pos_bound; lia).
  apply negb_true_iff in Hnan.
  pose proof (bits_bytes bits ltac:(lia)) as Hbits.
  destruct (((bits / 16777216 mod 256 =? 127) || (bits / 16777216 mod 256 =? 255))
            && (128 <=? bits / 65536 mod 256)) eqn:Hexp;
    [ | f_equal; lia ].
  cbn [andb] in Hnan. apply negb_false_iff in Hnan. rewrite Hnan. cbn [negb].
  apply andb_prop in Hnan as [ Hnan E2 ]. apply andb_prop in Hnan as [ E0 E1 ].
  apply andb_prop in Hexp as [ Hexp _ ].
  destruct (Z.eqb_spec (bits / 16777216 mod 256) 255) as [ EF | EF ]; [ f_equal; lia | ].
  rewrite orb_false_r in Hexp. f_equal. lia.
Qed.

(** *** Merging the fields of one declared field

    For each field type: merging what the encoder of a field wrote into
    a message that still has the field at its default sets the field to
    the value that was written. *)
Section merge.

Context {T : Type} (merge : T -> field -> res T).

Lemma merge_fields_app (fs1 fs2 : list field) (self : T) :
  merge_fields merge (fs1 ++ fs2) self
  = (self' <- merge_fields merge fs1 self ;; merge_fields merge fs2 self').
Proof.
  revert self. induction fs1 as [ | f fs1 IH ]; intros self; [ reflexivity | ].
  cbn [app merge_fields]. destruct (merge self f); cbn [bind]; [ apply IH | reflexivity ].
Qed.

Lemma merge_fields_one (f : field) (self : T) :
  merge_fields merge [f] self = merge self f.
Proof. cbn [merge_fields]. destruct (merge self f); reflexivity. Qed.

Lemma merge_float (n bits : Z) (self : T) (set : Z -> T) :
  (forall data, merge self (n, Fixed32 data)
                = (value <- _FloatDecoder data ;;
                   Ok (set (if float_is_zero value then 0 else value)))) ->
  set 0 = self ->
  float32_ok bits = true ->
  merge_fields merge (if bits =? 0 then [] else FloatEncoder n bits) self = Ok (set bits).
Proof.
  intros Hmerge Hdefault Hok.
  destruct (FloatDecoder_pack_f bits Hok) as [ Hdec Hzero ].
  destruct (Z.eqb_spec bits 0) as [ -> | Hnz ]; [ now rewrite Hdefault | ].
  unfold FloatEncoder. rewrite merge_fields_one, Hmerge, Hdec. cbn [bind].
  rewrite Hzero. now destruct (Z.eqb_spec bits 0).
Qed.

Lemma merge_enum (n value : Z) (self : T) (set : Z -> T) :
  (forall v, merge self (n, Varint v) = Ok (set (signed 32 v))) ->
  set 0 = self ->
  int32_ok value = true ->
  merge_fields merge (if value =? 0 then [] else EnumEncoder n value) self
  = Ok (set value).
Proof.
  intros Hmerge Hdefault Hok.
  destruct (Z.eqb_spec value 0) as [ -> | Hnz ]; [ now rewrite Hdefault | ].
  unfold EnumEncoder. rewrite merge_fields_one, Hmerge.
  now rewrite signed_32_unsigned64.
Qed.

Lemma merge_string (n : Z) (value : list byte) (self : T) (set : list byte -> T) :
  (forall data, merge self (n, LengthDelimited data)
                = (v <- _ConvertToUnicode data ;; Ok (set v))) ->
  set [] = self ->
  utf8_valid value = true ->
  merge_fields merge (match value with [] => [] | _ => StringEncoder n value end) self
  = Ok (set value).
Proof.
  intros Hmerge Hdefault Hok.
  destruct value as [ | b value ]; [ now rewrite Hdefault | ].
  unfold StringEncoder. rewrite merge_fields_one, Hmerge.
  unfold _ConvertToUnicode. now rewrite Hok.
Qed.

Lemma merge_bytes (n : Z) (value : list byte) (self : T) (set : list byte -> T) :
  (forall data, merge self (n, LengthDelimited data) = Ok (set data)) ->
  set [] = self ->
  merge_fields merge (match value with [] => [] | _ => BytesEncoder n value end) self
  = Ok (set value).
Proof.
  intros Hmerge Hdefault.
  destruct value as [ | b value ]; [ now rewrite Hdefault | ].
  unfold BytesEncoder. now rewrite merge_fields_one, Hmerge.
Qed.

Lemma merge_packed (n : Z) (value : list Z) (self : T) (set : list Z -> T) :
  (forall data, merge self (n, LengthDelimited data)
                = (elements <- DecodePacked 64 data ;; Ok (set elements))) ->
  set [] = self ->
  forallb int64_ok value = true ->
  merge_fields merge (match value with [] => [] | _ => Int64Encoder n true value end) self
  = Ok (set value).
Proof.
  intros Hmerge Hdefault Hok.
  destruct value as [ | element value ]; [ now rewrite Hdefault | ].
  unfold Int64Encoder. rewrite merge_fields_one, Hmerge.
  now rewrite DecodePacked_EncodeSignedVarint.
Qed.

Lemma merge_message {U : Type} (n : Z) (value : option U)
    (serialize : U -> list byte) (parse : list byte -> res U)
    (self : T) (set : option U -> T) :
  (forall data, merge self (n, LengthDelimited data)
                = (v <- parse data ;; Ok (set (Some v)))) ->
  set None = self ->
  (forall u, value = Some u -> parse (serialize u) = Ok u) ->
  merge_fields merge
    (match value with
     | Some v => MessageEncoder n (serialize v)
     | None => []
     end) self
  = Ok (set value).
Proof.
  intros Hmerge Hdefault Hparse.
  destruct value as [ u | ]; [ | now rewrite Hdefault ].
  unfold MessageEncoder. rewrite merge_fields_one, Hmerge.
  now rewrite (Hparse u eq_refl).
Qed.

Lemma merge_repeated {U : Type} (n : Z) (value : list U)
    (serialize : U -> list byte) (parse : list byte -> res U)
    (self : T) (set : list U -> T) :
  (forall l data, merge (set l) (n, LengthDelimited data)
                  = (element <- parse data ;; Ok (set (l ++ [element])))) ->
  set [] = self ->
  (forall u, In u value -> parse (serialize u) = Ok u) ->
  merge_fields merge
    (flat_map (fun element => MessageEncoder n (serialize element)) value) self
  = Ok (set value).
Proof.
  intros Hmerge Hdefault Hparse. rewrite <- Hdefault.
  change value with ([] ++ value) at 2. generalize (@nil U) as l.
  induction value as [ | u value IH ]; intros l.
  - now rewrite app_nil_r.
  - cbn [flat_map MessageEncoder app merge_fields].
    rewrite Hmerge, (Hparse u (or_introl eq_refl)). cbn [bind].
    rewrite IH by (intros u' Hin; apply Hparse; now right).
    now rewrite <- app_assoc.
Qed.

End merge.

(** *** The fields of a valid message pass [field_ok] *)

(** A length-delimited payload is no longer than the serialization it
    is part of. *)
Lemma len_payload_le (n : Z) (data : list byte) (fs : list field) :
  In (n, LengthDelimited data) fs -> len data <= len (write_fields fs).
Proof.
  induction fs as [ | f fs IH ]; intros Hin; [ contradiction | ].
  cbn [write_fields flat_map]. fold (write_fields fs). rewrite len_app.
  pose proof (len_nonneg (write_fields fs)). pose proof (len_nonneg (write_field f)).
  destruct Hin as [ -> | Hin ].
  - cbn [write_field]. rewrite !len_app.
    pose proof (len_nonneg (TagBytes n WIRETYPE_LENGTH_DELIMITED)).
    pose proof (len_nonneg (EncodeVarint (len data))). lia.
  - specialize (IH Hin). lia.
Qed.

Lemma fields_ok_of_size (fs : list field) :
  size_ok (write_fields fs) = true ->
  Forall field_ok_but_size fs ->
  forallb field_ok fs = true.
Proof.
  intros Hsize Hall. apply forallb_forall. intros [ n v ] Hin.
  pose proof (proj1 (Forall_forall _ _) Hall _ Hin) as Hf.
  unfold field_ok_but_size in Hf. cbn [fst snd] in Hf.
  destruct v as [ value | data | data | | | data ]; try exact Hf.
  unfold field_ok. rewrite Hf. cbn [andb].
  pose proof (len_payload_le n data fs Hin) as Hle.
  unfold size_ok in *. apply Z.ltb_lt in Hsize. apply Z.ltb_lt. lia.
Qed.

Lemma EnumEncoder_ok (n value : Z) :
  (0 <? n) && (n <? Z.shiftl 1 61) = true ->
  int32_ok value = true ->
  Forall field_ok_but_size (EnumEncoder n value).
Proof.
  intros Hn Hok. constructor; [ | constructor ].
  unfold field_ok_but_size, field_ok. cbn [fst snd]. rewrite Hn. cbn [andb].
  pose proof (unsigned64_range value (int32_ok_int64_ok value Hok)).
  change (Z.shiftl 1 64) with (2 ^ 64).
  apply andb_true_intro. split; [ apply Z.leb_le | apply Z.ltb_lt ]; lia.
Qed.

Ltac split_valid :=
  repeat match goal with
         | H : _ && _ = true |- _ => apply andb_prop in H as [ ? ? ]
         end.

(** The fields of one declared field pass [field_ok_but_size]. *)
Ltac fields_shape :=
  repeat first
    [ apply Forall_nil
    | apply Forall_app; split
    | apply EnumEncoder_ok;
      [ reflexivity | match goal with H : int32_ok _ = true |- _ => exact H end ]
    | apply Forall_flat_map, Forall_forall; intros
    | match goal with
      | |- Forall _ (if ?c then _ else _) => destruct c
      | |- Forall _ (match ?x with _ => _ end) => destruct x
      end
    | apply Forall_cons; [ reflexivity | ] ].

(** The side conditions of the [merge_] lemmas: the decoder the message
    registers for the field, the default the field still has, and the
    validity of the value. *)
Ltac merge_side :=
  first
    [ match goal with H : ?P |- ?P => exact H end
    | intros; reflexivity ].

Ltac merge_side_sub roundtrip v :=
  first
    [ intros; reflexivity
    | let u := fresh "u" in
      let E := fresh "E" in
      intros u E; apply roundtrip;
      match goal with
      | H : match v with Some _ => _ | None => _ end = true |- _ =>
          rewrite E in H; exact H
      | H : forallb _ v = true |- _ => exact (proj1 (forallb_forall _ _) H u E)
      end ].

Ltac merge_scalar lem n v setter :=
  match goal with
  | |- context [ merge_fields ?m _ ?acc ] =>
      rewrite (lem _ m n v acc (fun x => setter x acc)) by merge_side
  end; cbn [bind].

Ltac merge_sub lem n v serialize parse roundtrip setter :=
  match goal with
  | |- context [ merge_fields ?m _ ?acc ] =>
      rewrite (lem _ m _ n v serialize parse acc (fun x => setter x acc))
        by merge_side_sub roundtrip v
  end; cbn [bind].

(** *** TensorDef *)

Ltac norm_TensorDef :=
  cbv [ TensorDef.set_shape TensorDef.set_dtype
        TensorDef.shape TensorDef.dtype TensorDef.default ].

Lemma TensorDef_fields_ok (self : TensorDef.t) :
  TensorDef.valid self = true ->
  forallb field_ok (TensorDef.encoded_fields self) = true.
Proof.
  destruct self as [ shape dtype ]. intros Hvalid.
  unfold TensorDef.valid in Hvalid.
  cbn [ TensorDef.shape TensorDef.dtype ] in Hvalid.
  split_valid.
  apply fields_ok_of_size;
    [ match goal with H : size_ok _ = true |- _ => exact H end | ].
  unfold TensorDef.encoded_fields.
  cbn [ TensorDef.shape TensorDef.dtype ].
  fields_shape.
Qed.

Lemma TensorDef_merge_encoded_fields (self : TensorDef.t) :
  TensorDef.valid self = true ->
  merge_fields TensorDef.merge (TensorDef.encoded_fields self) TensorDef.default = Ok self.
Proof.
  destruct self as [ shape dtype ]. intros Hvalid.
  unfold TensorDef.valid in Hvalid.
  cbn [ TensorDef.shape TensorDef.dtype ] in Hvalid.
  split_valid.
  match goal with H : size_ok _ = true |- _ => clear H end.
  unfold TensorDef.encoded_fields.
  cbn [ TensorDef.shape TensorDef.dtype ]. norm_TensorDef.
  change (is_packed TensorDef.DESCRIPTOR) with true.
  rewrite merge_fields_app.
  merge_scalar @merge_packed TensorDef.shape_number shape TensorDef.set_shape; norm_TensorDef.
  merge_scalar @merge_enum TensorDef.dtype_number dtype TensorDef.set_dtype; norm_TensorDef.
  reflexivity.
Qed.

(** Parsing the serialization of a valid [TensorDef] gives the message
    back. *)
Lemma TensorDef_roundtrip (self : TensorDef.t) :
  TensorDef.valid self = true ->
  TensorDef.FromString (TensorDef.SerializeToString self) = Ok self.
Proof.
  intros Hvalid.
  unfold TensorDef.FromString, TensorDef.MergeFromString, TensorDef.SerializeToString.
  rewrite Fields_write_fields by now apply TensorDef_fields_ok.
  cbn [bind]. now apply TensorDef_merge_encoded_fields.
Qed.

(** The serialization of a valid [TensorDef] without its last byte does
    not parse. *)
Lemma TensorDef_truncated (self : TensorDef.t) :
  TensorDef.valid self = true ->
  TensorDef.SerializeToString self <> [] ->
  TensorDef.FromString (removelast (TensorDef.SerializeToString self))
  = DecodeError Truncated.
Proof.
  intros Hvalid Hne.
  unfold TensorDef.FromString, TensorDef.MergeFromString, TensorDef.SerializeToString in *.
  rewrite Fields_truncated; [ reflexivity | now apply TensorDef_fields_ok | ].
  intros E. now rewrite E in Hne.
Qed.

(** *** Tensor *)

Ltac norm_Tensor :=
  cbv [ Tensor.set_buffer Tensor.set_tensor_def
        Tensor.buffer Tensor.tensor_def Tensor.default ].

Lemma Tensor_fields_ok (self : Tensor.t) :
  Tensor.valid self = true ->
  forallb field_ok (Tensor.encoded_fields self) = true.
Proof.
  destruct self as [ buffer tensor_def ]. intros Hvalid.
  unfold Tensor.valid in Hvalid.
  cbn [ Tensor.buffer Tensor.tensor_def ] in Hvalid.
  split_valid.
  apply fields_ok_of_size;
    [ match goal with H : size_ok _ = true |- _ => exact H end | ].
  unfold Tensor.encoded_fields.
  cbn [ Tensor.buffer Tensor.tensor_def ].
  fields_shape.
Qed.

Lemma Tensor_merge_encoded_fields (self : Tensor.t) :
  Tensor.valid self = true ->
  merge_fields Tensor.merge (Tensor.encoded_fields self) Tensor.default = Ok self.
Proof.
  destruct self as [ buffer tensor_def ]. intros Hvalid.
  unfold Tensor.valid in Hvalid.
  cbn [ Tensor.buffer Tensor.tensor_def ] in Hvalid.
  split_valid.
  match goal with H : size_ok _ = true |- _ => clear H end.
  unfold Tensor.encoded_fields.
  cbn [ Tensor.buffer Tensor.tensor_def ]. norm_Tensor.
  rewrite merge_fields_app.
  merge_scalar @merge_bytes Tensor.buffer_number buffer Tensor.set_buffer; norm_Tensor.
  merge_sub @merge_message Tensor.tensor_def_number tensor_def
    TensorDef.SerializeToString TensorDef.FromString TensorDef_roundtrip Tensor.set_tensor_def; norm_Tensor.
  reflexivity.
Qed.

(** Parsing the serialization of a valid [Tensor] gives the message
    back. *)
Lemma Tensor_roundtrip (self : Tensor.t) :
  Tensor.valid self = true ->
  Tensor.FromString (Tensor.SerializeToString self) = Ok self.
Proof.
  intros Hvalid.
  unfold Tensor.FromString, Tensor.MergeFromString, Tensor.SerializeToString.
  rewrite Fields_write_fields by now apply Tensor_fields_ok.
  cbn [bind]. now apply Tensor_merge_encoded_fields.
Qed.

(** The serialization of a valid [Tensor] without its last byte does
    not parse. *)
Lemma Tensor_truncated (self : Tensor.t) :
  Tensor.valid self = true ->
  Tensor.SerializeToString self <> [] ->
  Tensor.FromString (removelast (Tensor.SerializeToString self))
  = DecodeError Truncated.
Proof.
  intros Hvalid Hne.
  unfold Tensor.FromString, Tensor.MergeFromString, Tensor.SerializeToString in *.
  rewrite Fields_truncated; [ reflexivity | now apply Tensor_fields_ok | ].
  intros E. now rewrite E in Hne.
Qed.

(** *** Synapse *)

Ltac norm_Synapse :=
  cbv [ Synapse.set_version Synapse.set_neuron_key Synapse.set_signature Synapse.set_block_hash Synapse.set_proof_of_work Synapse.set_identity Synapse.set_address Synapse.set_port Synapse.set_m_port Synapse.set_indef Synapse.set_outdef
        Synapse.version Synapse.neuron_key Synapse.signature Synapse.block_hash Synapse.proof_of_work Synapse.identity Synapse.address Synapse.port Synapse.m_port Synapse.indef Synapse.outdef Synapse.default ].

Lemma Synapse_fields_ok (self : Synapse.t) :
  Synapse.valid self = true ->
  forallb field_ok (Synapse.encoded_fields self) = true.
Proof.
  destruct self as [ version neuron_key signature block_hash proof_of_work identity address port m_port indef outdef ]. intros Hvalid.
  unfold Synapse.valid in Hvalid.
  cbn [ Synapse.version Synapse.neuron_key Synapse.signature Synapse.block_hash Synapse.proof_of_work Synapse.identity Synapse.address Synapse.port Synapse.m_port Synapse.indef Synapse.outdef ] in Hvalid.
  split_valid.
  apply fields_ok_of_size;
    [ match goal with H : size_ok _ = true |- _ => exact H end | ].
  unfold Synapse.encoded_fields.
  cbn [ Synapse.version Synapse.neuron_key Synapse.signature Synapse.block_hash Synapse.proof_of_work Synapse.identity Synapse.address Synapse.port Synapse.m_port Synapse.indef Synapse.outdef ].
  fields_shape.
Qed.

Lemma Synapse_merge_encoded_fields (self : Synapse.t) :
  Synapse.valid self = true ->
  merge_fields Synapse.merge (Synapse.encoded_fields self) Synapse.default = Ok self.
Proof.
  destruct self as [ version neuron_key signature block_hash proof_of_work identity address port m_port indef outdef ]. intros Hvalid.
  unfold Synapse.valid in Hvalid.
  cbn [ Synapse.version Synapse.neuron_key Synapse.signature Synapse.block_hash Synapse.proof_of_work Synapse.identity Synapse.address Synapse.port Synapse.m_port Synapse.indef Synapse.outdef ] in Hvalid.
  split_valid.
  match goal with H : size_ok _ = true |- _ => clear H end.
  unfold Synapse.encoded_fields.
  cbn [ Synapse.version Synapse.neuron_key Synapse.signature Synapse.block_hash Synapse.proof_of_work Synapse.identity Synapse.address Synapse.port Synapse.m_port Synapse.indef Synapse.outdef ]. norm_Synapse.
  rewrite merge_fields_app.
  merge_scalar @merge_float Synapse.version_number version Synapse.set_version; norm_Synapse.
  rewrite merge_fields_app.
  merge_scalar @merge_string Synapse.neuron_key_number neuron_key Synapse.set_neuron_key; norm_Synapse.
  rewrite merge_fields_app.
  merge_scalar @merge_bytes Synapse.signature_number signature Synapse.set_signature; norm_Synapse.
  rewrite merge_fields_app.
  merge_scalar @merge_bytes Synapse.block_hash_number block_hash Synapse.set_block_hash; norm_Synapse.
  rewrite merge_fields_app.
  merge_scalar @merge_bytes Synapse.proof_of_work_number proof_of_work Synapse.set_proof_of_work; norm_Synapse.
  rewrite merge_fields_app.
  merge_scalar @merge_string Synapse.identity_number identity Synapse.set_identity; norm_Synapse.
  rewrite merge_fields_app.
  merge_scalar @merge_string Synapse.address_number address Synapse.set_address; norm_Synapse.
  rewrite merge_fields_app.
  merge_scalar @merge_string Synapse.port_number port Synapse.set_port; norm_Synapse.
  rewrite merge_fields_app.
  merge_scalar @merge_string Synapse.m_port_number m_port Synapse.set_m_port; norm_Synapse.
  rewrite merge_fields_app.
  merge_sub @merge_message Synapse.indef_number indef
    TensorDef.SerializeToString TensorDef.FromString TensorDef_roundtrip Synapse.set_indef; norm_Synapse.
  merge_sub @merge_message Synapse.outdef_number outdef
    TensorDef.SerializeToString TensorDef.FromString TensorDef_roundtrip Synapse.set_outdef; norm_Synapse.
  reflexivity.
Qed.

(** Parsing the serialization of a valid [Synapse] gives the message
    back. *)
Lemma Synapse_roundtrip (self : Synapse.t) :
  Synapse.valid self = true ->
  Synapse.FromString (Synapse.SerializeToString self) = Ok self.
Proof.
  intros Hvalid.
  unfold Synapse.FromString, Synapse.MergeFromString, Synapse.SerializeToString.
  rewrite Fields_write_fields by now apply Synapse_fields_ok.
  cbn [bind]. now apply Synapse_merge_encoded_fields.
Qed.

(** The serialization of a valid [Synapse] without its last byte does
    not parse. *)
Lemma Synapse_truncated (self : Synapse.t) :
  Synapse.valid self = true ->
  Synapse.SerializeToString self <> [] ->
  Synapse.FromString (removelast (Synapse.SerializeToString self))
  = DecodeError Truncated.
Proof.
  intros Hvalid Hne.
  unfold Synapse.FromString, Synapse.MergeFromString, Synapse.SerializeToString in *.
  rewrite Fields_truncated; [ reflexivity | now apply Synapse_fields_ok | ].
  intros E. now rewrite E in Hne.
Qed.

(** *** SynapseBatch *)

Ltac norm_SynapseBatch :=
  cbv [ SynapseBatch.set_version SynapseBatch.set_neuron_key SynapseBatch.set_signature SynapseBatch.set_synapses
        SynapseBatch.version SynapseBatch.neuron_key SynapseBatch.signature SynapseBatch.synapses SynapseBatch.default ].

Lemma SynapseBatch_fields_ok (self : SynapseBatch.t) :
  SynapseBatch.valid self = true ->
  forallb field_ok (SynapseBatch.encoded_fields self) = true.
Proof.
  destruct self as [ version neuron_key signature synapses ]. intros Hvalid.
  unfold SynapseBatch.valid in Hvalid.
  cbn [ SynapseBatch.version SynapseBatch.neuron_key SynapseBatch.signature SynapseBatch.synapses ] in Hvalid.
  split_valid.
  apply fields_ok_of_size;
    [ match goal with H : size_ok _ = true |- _ => exact H end | ].
  unfold SynapseBatch.encoded_fields.
  cbn [ SynapseBatch.version SynapseBatch.neuron_key SynapseBatch.signature SynapseBatch.synapses ].
  fields_shape.
Qed.

Lemma SynapseBatch_merge_encoded_fields (self : SynapseBatch.t) :
  SynapseBatch.valid self = true ->
  merge_fields SynapseBatch.merge (SynapseBatch.encoded_fields self) SynapseBatch.default = Ok self.
Proof.
  destruct self as [ version neuron_key signature synapses ]. intros Hvalid.
  unfold SynapseBatch.valid in Hvalid.
  cbn [ SynapseBatch.version SynapseBatch.neuron_key SynapseBatch.signature SynapseBatch.synapses ] in Hvalid.
  split_valid.
  match goal with H : size_ok _ = true |- _ => clear H end.
  unfold SynapseBatch.encoded_fields.
  cbn [ SynapseBatch.version SynapseBatch.neuron_key SynapseBatch.signature SynapseBatch.synapses ]. norm_SynapseBatch.
  rewrite merge_fields_app.
  merge_scalar @merge_float SynapseBatch.version_number version SynapseBatch.set_version; norm_SynapseBatch.
  rewrite merge_fields_app.
  merge_scalar @merge_string SynapseBatch.neuron_key_number neuron_key SynapseBatch.set_neuron_key; norm_SynapseBatch.
  rewrite merge_fields_app.
  merge_scalar @merge_bytes SynapseBatch.signature_number signature SynapseBatch.set_signature; norm_SynapseBatch.
  merge_sub @merge_repeated SynapseBatch.synapses_number synapses
    Synapse.SerializeToString Synapse.FromString Synapse_roundtrip SynapseBatch.set_synapses; norm_SynapseBatch.
  reflexivity.
Qed.

(** Parsing the serialization of a valid [SynapseBatch] gives the message
    back. *)
Lemma SynapseBatch_roundtrip (self : SynapseBatch.t) :
  SynapseBatch.valid self = true ->
  SynapseBatch.FromString (SynapseBatch.SerializeToString self) = Ok self.
Proof.
  intros Hvalid.
  unfold SynapseBatch.FromString, SynapseBatch.MergeFromString, SynapseBatch.SerializeToString.
  rewrite Fields_write_fields by now apply SynapseBatch_fields_ok.
  cbn [bind]. now apply SynapseBatch_merge_encoded_fields.
Qed.

(** The serialization of a valid [SynapseBatch] without its last byte does
    not parse. *)
Lemma SynapseBatch_truncated (self : SynapseBatch.t) :
  SynapseBatch.valid self = true ->
  SynapseBatch.SerializeToString self <> [] ->
  SynapseBatch.FromString (removelast (SynapseBatch.SerializeToString self))
  = DecodeError Truncated.
Proof.
  intros Hvalid Hne.
  unfold SynapseBatch.FromString, SynapseBatch.MergeFromString, SynapseBatch.SerializeToString in *.
  rewrite Fields_truncated; [ reflexivity | now apply SynapseBatch_fields_ok | ].
  intros E. now rewrite E in Hne.
Qed.

(** *** TensorMessage *)

Ltac norm_TensorMessage :=
  cbv [ TensorMessage.set_version TensorMessage.set_neuron_key TensorMessage.set_source_id TensorMessage.set_target_id TensorMessage.set_nounce TensorMessage.set_signature TensorMessage.set_tensors
        TensorMessage.version TensorMessage.neuron_key TensorMessage.source_id TensorMessage.target_id TensorMessage.nounce TensorMessage.signature TensorMessage.tensors TensorMessage.default ].

Lemma TensorMessage_fields_ok (self : TensorMessage.t) :
  TensorMessage.valid self = true ->
  forallb field_ok (TensorMessage.encoded_fields self) = true.
Proof.
  destruct self as [ version neuron_key source_id target_id nounce signature tensors ]. intros Hvalid.
  unfold TensorMessage.valid in Hvalid.
  cbn [ TensorMessage.version TensorMessage.neuron_key TensorMessage.source_id TensorMessage.target_id TensorMessage.nounce TensorMessage.signature TensorMessage.tensors ] in Hvalid.
  split_valid.
  apply fields_ok_of_size;
    [ match goal with H : size_ok _ = true |- _ => exact H end | ].
  unfold TensorMessage.encoded_fields.
  cbn [ TensorMessage.version TensorMessage.neuron_key TensorMessage.source_id TensorMessage.target_id TensorMessage.nounce TensorMessage.signature TensorMessage.tensors ].
  fields_shape.
Qed.

Lemma TensorMessage_merge_encoded_fields (self : TensorMessage.t) :
  TensorMessage.valid self = true ->
  merge_fields TensorMessage.merge (TensorMessage.encoded_fields self) TensorMessage.default = Ok self.
Proof.
  destruct self as [ version neuron_key source_id target_id nounce signature tensors ]. intros Hvalid.
  unfold TensorMessage.valid in Hvalid.
  cbn [ TensorMessage.version TensorMessage.neuron_key TensorMessage.source_id TensorMessage.target_id TensorMessage.nounce TensorMessage.signature TensorMessage.tensors ] in Hvalid.
  split_valid.
  match goal with H : size_ok _ = true |- _ => clear H end.
  unfold TensorMessage.encoded_fields.
  cbn [ TensorMessage.version TensorMessage.neuron_key TensorMessage.source_id TensorMessage.target_id TensorMessage.nounce TensorMessage.signature TensorMessage.tensors ]. norm_TensorMessage.
  rewrite merge_fields_app.
  merge_scalar @merge_float TensorMessage.version_number version TensorMessage.set_version; norm_TensorMessage.
  rewrite merge_fields_app.
  merge_scalar @merge_string TensorMessage.neuron_key_number neuron_key TensorMessage.set_neuron_key; norm_TensorMessage.
  rewrite merge_fields_app.
  merge_scalar @merge_string TensorMessage.source_id_number source_id TensorMessage.set_source_id; norm_TensorMessage.
  rewrite merge_fields_app.
  merge_scalar @merge_string TensorMessage.target_id_number target_id TensorMessage.set_target_id; norm_TensorMessage.
  rewrite merge_fields_app.
  merge_scalar @merge_bytes TensorMessage.nounce_number nounce TensorMessage.set_nounce; norm_TensorMessage.
  rewrite merge_fields_app.
  merge_scalar @merge_bytes TensorMessage.signature_number signature TensorMessage.set_signature; norm_TensorMessage.
  merge_sub @merge_repeated TensorMessage.tensors_number tensors
    Tensor.SerializeToString Tensor.FromString Tensor_roundtrip TensorMessage.set_tensors; norm_TensorMessage.
  reflexivity.
Qed.

(** Parsing the serialization of a valid [TensorMessage] gives the message
    back. *)
Lemma TensorMessage_roundtrip (self : TensorMessage.t) :
  TensorMessage.valid self = true ->
  TensorMessage.FromString (TensorMessage.SerializeToString self) = Ok self.
Proof.
  intros Hvalid.
  unfold TensorMessage.FromString, TensorMessage.MergeFromString, TensorMessage.SerializeToString.
  rewrite Fields_write_fields by now apply TensorMessage_fields_ok.
  cbn [bind]. now apply TensorMessage_merge_encoded_fields.
Qed.

(** The serialization of a valid [TensorMessage] without its last byte does
    not parse. *)
Lemma TensorMessage_truncated (self : TensorMessage.t) :
  TensorMessage.valid self = true ->
  TensorMessage.SerializeToString self <> [] ->
  TensorMessage.FromString (removelast (TensorMessage.SerializeToString self))
  = DecodeError Truncated.
Proof.
  intros Hvalid Hne.
  unfold TensorMessage.FromString, TensorMessage.MergeFromString, TensorMessage.SerializeToString in *.
  rewrite Fields_truncated; [ reflexivity | now apply TensorMessage_fields_ok | ].
  intros E. now rewrite E in Hne.
Qed.


End wire_facts.

(** ** The rest of the schema *)
Module schema_more.
Import descriptor opentensor_pb2.
Local Open Scope string_scope.

(** X18: the two messages next to [TensorMessage], [Synapse] and
    [TensorDef]: SynapseBatch consists of version (float32), neuron_key
    (string), signature (bytes) and synapses (repeated Synapse), numbered 1
    to 4, and Tensor of buffer (bytes) and tensor_def (TensorDef), numbered
    1 and 2; a Tensor has no version field. *)
Theorem SynapseBatch_and_Tensor_fields :
  message_signature _SYNAPSEBATCH
  = map Some
      [ ("version", singular, float32);
        ("neuron_key", singular, string_);
        ("signature", singular, bytes);
        ("synapses", repeated, message "Synapse") ]
  /\ map number (fields _SYNAPSEBATCH) = [1; 2; 3; 4]
  /\ message_signature _TENSOR
     = map Some
         [ ("buffer", singular, bytes);
           ("tensor_def", singular, message "TensorDef") ]
  /\ map number (fields _TENSOR) = [1; 2]
  /\ fields_by_name _TENSOR "version" = None.
Proof. repeat split; reflexivity. Qed.

(** X19: the descriptors are wired up: every message is registered in the
    file descriptor under its own name; every field carries the full name
    [Message.field] and its position as index; the field numbers of a
    message are positive and differ from one another; a field has a
    [message_type] exactly when its type is [TYPE_MESSAGE] and an
    [enum_type] exactly when its type is [TYPE_ENUM], and that type is
    registered in the file descriptor under the name referred to. *)
Theorem descriptors_are_wired_up :
  Forall (fun kv =>
      let d := snd kv in
      d_name d = fst kv
      /\ d_full_name d = d_name d
      /\ d_syntax d = syntax DESCRIPTOR
      /\ map index (fields d) = map Z.of_nat (seq 0 (List.length (fields d)))
      /\ NoDup (map number (fields d))
      /\ Forall (fun f => 0 < number f) (fields d)
      /\ Forall (fun f =>
             full_name f = d_name d ++ "." ++ name f
             /\ (type f = TYPE_MESSAGE <-> message_type f <> None)
             /\ (type f = TYPE_ENUM <-> enum_type f <> None)
             /\ (forall m, message_type f = Some m ->
                   exists target,
                     dict_get (message_types_by_name DESCRIPTOR) m = Some target
                     /\ d_name target = m)
             /\ (forall e, enum_type f = Some e ->
                   exists target,
                     dict_get (enum_types_by_name DESCRIPTOR) e = Some target
                     /\ e_name target = e))
           (fields d))
    (message_types_by_name DESCRIPTOR).
Proof.
  repeat (apply Forall_cons || apply Forall_nil); cbv zeta;
    (split; [ reflexivity | split; [ reflexivity | split; [ reflexivity
      | split; [ reflexivity | split; [ | split ] ] ] ] ]).
  all: try (cbn; repeat constructor; cbn; intuition discriminate).
  all: try (repeat (apply Forall_cons || apply Forall_nil); reflexivity).
  all: repeat (apply Forall_cons || apply Forall_nil).
  all: (split; [ reflexivity | ]).
  all: cbn.
  all: repeat split.
  all: try discriminate.
  all: try reflexivity.
  all: try (intros H; exfalso; now apply H).
  all: try (intros x [= <-]; eexists; split; reflexivity).
Qed.

End schema_more.

(** ** The message classes as a user meets them *)
Module codec_props.
Import wire wire_facts.
Local Open Scope wire_scope.








Lemma Fields_write_fields_app (fs gs : list field) :
  forallb field_ok fs = true -> forallb field_ok gs = true ->
  Fields (write_fields fs ++ write_fields gs) = Ok (fs ++ gs).
Proof.
  intros Hfs Hgs. unfold write_fields. rewrite <- flat_map_app.
  apply Fields_write_fields. rewrite forallb_app, Hfs, Hgs. reflexivity.
Qed.

Lemma write_fields_one (f : field) : write_fields [f] = write_field f.
Proof. cbn [write_fields flat_map]. apply app_nil_r. Qed.







(** *** Round trips, one class at a time *)

(** X1: parsing the serialization of a valid [TensorDef] gives the
    message back: the shape in order and the dtype number, whether or not
    the enum [DataType] has a value of that number. *)
Theorem TensorDef_parses_its_serialization (self : TensorDef.t) :
  TensorDef.valid self = true ->
  TensorDef.FromString (TensorDef.SerializeToString self) = Ok self.
Proof. apply TensorDef_roundtrip. Qed.

Lemma TensorDef_parses_its_serialization_witness :
  TensorDef.valid sample.tensor_def = true
  /\ TensorDef.FromString (TensorDef.SerializeToString sample.tensor_def)
     = Ok sample.tensor_def.
Proof.
  split; [ reflexivity | ].
  apply (TensorDef_parses_its_serialization sample.tensor_def). reflexivity.
Defined.

(** X2: parsing the serialization of a valid [Tensor] gives the message
    back, whatever the length of [buffer] is next to the shape of
    [tensor_def], and with [tensor_def] unset or set. *)
Theorem Tensor_parses_its_serialization (self : Tensor.t) :
  Tensor.valid self = true ->
  Tensor.FromString (Tensor.SerializeToString self) = Ok self.
Proof. apply Tensor_roundtrip. Qed.

Lemma Tensor_parses_its_serialization_witness :
  Tensor.valid sample.tensor = true
  /\ Tensor.FromString (Tensor.SerializeToString sample.tensor) = Ok sample.tensor.
Proof.
  split; [ reflexivity | ].
  apply (Tensor_parses_its_serialization sample.tensor). reflexivity.
Defined.

(** X3: parsing the serialization of a valid [Synapse] gives the message
    back, all eleven fields. *)
Theorem Synapse_parses_its_serialization (self : Synapse.t) :
  Synapse.valid self = true ->
  Synapse.FromString (Synapse.SerializeToString self) = Ok self.
Proof. apply Synapse_roundtrip. Qed.

Lemma Synapse_parses_its_serialization_witness :
  Synapse.valid sample.synapse = true
  /\ Synapse.FromString (Synapse.SerializeToString sample.synapse) = Ok sample.synapse.
Proof.
  split; [ reflexivity | ].
  apply (Synapse_parses_its_serialization sample.synapse). reflexivity.
Defined.

(** X4: parsing the serialization of a valid [SynapseBatch] gives the
    message back, the synapses in order. *)
Theorem SynapseBatch_parses_its_serialization (self : SynapseBatch.t) :
  SynapseBatch.valid self = true ->
  SynapseBatch.FromString (SynapseBatch.SerializeToString self) = Ok self.
Proof. apply SynapseBatch_roundtrip. Qed.

Lemma SynapseBatch_parses_its_serialization_witness :
  SynapseBatch.valid sample.synapse_batch = true
  /\ SynapseBatch.FromString (SynapseBatch.SerializeToString sample.synapse_batch)
     = Ok sample.synapse_batch.
Proof.
  split; [ reflexivity | ].
  apply (SynapseBatch_parses_its_serialization sample.synapse_batch). reflexivity.
Defined.

(** X5: parsing the serialization of a valid [TensorMessage] gives the
    message back, the tensors in order. *)
Theorem TensorMessage_parses_its_serialization (self : TensorMessage.t) :
  TensorMessage.valid self = true ->
  TensorMessage.FromString (TensorMessage.SerializeToString self) = Ok self.
Proof. apply TensorMessage_roundtrip. Qed.

Lemma TensorMessage_parses_its_serialization_witness :
  TensorMessage.valid sample.tensor_message = true
  /\ TensorMessage.FromString (TensorMessage.SerializeToString sample.tensor_message)
     = Ok sample.tensor_message.
Proof.
  split; [ reflexivity | ].
  apply (TensorMessage_parses_its_serialization sample.tensor_message). reflexivity.
Defined.

(** *** Every registered class *)

Lemma message_roundtrip (m : message.t) :
  message.valid m = true ->
  message.FromString (message.class_of m) (message.SerializeToString m) = Ok m.
Proof.
  destruct m as [ m | m | m | m | m ]; intros Hvalid;
    cbn [message.valid message.FromString message.class_of message.SerializeToString] in *.
  - now rewrite SynapseBatch_roundtrip.
  - now rewrite Synapse_roundtrip.
  - now rewrite TensorMessage_roundtrip.
  - now rewrite Tensor_roundtrip.
  - now rewrite TensorDef_roundtrip.
Qed.

(** X6: a serialization cut one byte short does not parse: for a valid
    message of any class whose serialization is not empty, [FromString]
    on all but the last byte raises [DecodeError] for a truncated message. *)
Theorem truncated_serialization_is_rejected (m : message.t) :
  message.valid m = true ->
  message.SerializeToString m <> [] ->
  message.FromString (message.class_of m) (removelast (message.SerializeToString m))
  = DecodeError Truncated.
Proof.
  destruct m as [ m | m | m | m | m ]; intros Hvalid Hne;
    cbn [message.valid message.FromString message.class_of message.SerializeToString] in *.
  - now rewrite SynapseBatch_truncated.
  - now rewrite Synapse_truncated.
  - now rewrite TensorMessage_truncated.
  - now rewrite Tensor_truncated.
  - now rewrite TensorDef_truncated.
Qed.

Lemma truncated_serialization_is_rejected_witness :
  message.valid (message.TensorMessage_msg sample.tensor_message) = true
  /\ message.SerializeToString (message.TensorMessage_msg sample.tensor_message) <> []
  /\ message.FromString message.TensorMessage_cls
       (removelast (TensorMessage.SerializeToString sample.tensor_message))
     = DecodeError Truncated.
Proof.
  split; [ reflexivity | split; [ discriminate | ] ].
  apply (truncated_serialization_is_rejected
           (message.TensorMessage_msg sample.tensor_message));
    [ reflexivity | discriminate ].
Defined.

(** X7: two valid messages of one class with the same serialization are
    the same message: the bytes that are signed determine every field. *)
Theorem serialization_is_injective (a b : message.t) :
  message.valid a = true -> message.valid b = true ->
  message.class_of a = message.class_of b ->
  message.SerializeToString a = message.SerializeToString b ->
  a = b.
Proof.
  intros Ha Hb Hcls Hser.
  pose proof (message_roundtrip a Ha) as Ra.
  pose proof (message_roundtrip b Hb) as Rb.
  rewrite Hcls, Hser, Rb in Ra. now injection Ra.
Qed.

Lemma serialization_is_injective_witness :
  message.valid (message.Tensor_msg sample.tensor) = true
  /\ message.Tensor_msg sample.tensor = message.Tensor_msg sample.tensor.
Proof.
  split; [ reflexivity | ].
  apply (serialization_is_injective
           (message.Tensor_msg sample.tensor) (message.Tensor_msg sample.tensor));
    reflexivity.
Defined.



(** X9: only the fresh message of a class serializes to nothing: a valid
    message has the empty serialization exactly when every field is at its
    default. *)
Theorem empty_serialization_iff_default (m : message.t) :
  message.valid m = true ->
  message.SerializeToString m = [] <-> m = message.default (message.class_of m).
Proof.
  intros Hvalid. split.
  - intros Hempty. pose proof (message_roundtrip m Hvalid) as R.
    rewrite Hempty in R.
    destruct m; cbn [message.class_of] in *; cbv in R; injection R as <-; reflexivity.
  - intros ->. now destruct (message.class_of m).
Qed.

Lemma empty_serialization_iff_default_witness :
  message.valid (message.Synapse_msg Synapse.default) = true
  /\ message.SerializeToString (message.Synapse_msg Synapse.default) = [].
Proof.
  split; [ reflexivity | ].
  apply (empty_serialization_iff_default (message.Synapse_msg Synapse.default));
    reflexivity.
Defined.


(** *** The fields of [TensorDef] *)

Lemma signed_32_range (z : Z) : int32_ok (signed 32 z) = true.
Proof.
  unfold signed. change (Z.shiftl 1 32 - 1) with (Z.ones 32).
  rewrite Z.land_ones by lia. change (32 - 1) with 31.
  pose proof (Z.mod_pos_bound z (2 ^ 32) ltac:(reflexivity)) as Hu.
  rewrite lxor_signbit by (change (2 ^ (31 + 1)) with (2 ^ 32); lia).
  unfold int32_ok. change (Z.shiftl 1 31) with 2147483648.
  change (2 ^ 32) with 4294967296 in *. change (2 ^ 31) with 2147483648.
  destruct (Z.ltb_spec (z mod 4294967296) 2147483648);
    apply andb_true_intro; split; [ apply Z.leb_le | apply Z.ltb_lt
                                  | apply Z.leb_le | apply Z.ltb_lt ]; lia.
Qed.

(** X10: the parser takes any number for [dtype]: a varint of up to 64
    bits in field 4 is stored as the [int32] of its low 32 bits, with no
    check against the values of the enum [DataType]. *)
Theorem dtype_accepts_any_varint (z : Z) :
  0 <= z < 2 ^ 64 ->
  TensorDef.FromString (write_field (TensorDef.dtype_number, Varint z))
  = Ok {| TensorDef.shape := []; TensorDef.dtype := signed 32 z |}
  /\ int32_ok (signed 32 z) = true.
Proof.
  intros Hz. split; [ | apply signed_32_range ].
  unfold TensorDef.FromString, TensorDef.MergeFromString.
  rewrite <- write_fields_one, Fields_write_fields.
  - reflexivity.
  - cbn [forallb field_ok TensorDef.dtype_number]. change (Z.shiftl 1 64) with (2 ^ 64).
    rewrite andb_true_r. apply andb_true_intro.
    split; [ reflexivity | apply andb_true_intro; split;
                           [ apply Z.leb_le | apply Z.ltb_lt ]; lia ].
Qed.

Lemma dtype_accepts_any_varint_witness :
  0 <= 7 < 2 ^ 64
  /\ descriptor.values_by_number opentensor_pb2._DATATYPE 7 = None
  /\ TensorDef.FromString [x20; x07]
     = Ok {| TensorDef.shape := []; TensorDef.dtype := 7 |}.
Proof.
  assert (H : 0 <= 7 < 2 ^ 64) by (split; [ discriminate | reflexivity ]).
  split; [ exact H | split; [ reflexivity | ] ].
  exact (proj1 (dtype_accepts_any_varint 7 H)).
Defined.

Lemma TensorDef_merge_into (a b : TensorDef.t) :
  TensorDef.valid b = true ->
  merge_fields TensorDef.merge (TensorDef.encoded_fields b) a
  = Ok {| TensorDef.shape := TensorDef.shape a ++ TensorDef.shape b;
          TensorDef.dtype :=
            if TensorDef.dtype b =? 0 then TensorDef.dtype a else TensorDef.dtype b |}.
Proof.
  destruct a as [ shape_a dtype_a ], b as [ shape_b dtype_b ]. intros Hvalid.
  unfold TensorDef.valid in Hvalid. cbn [TensorDef.shape TensorDef.dtype] in *.
  split_valid. match goal with H : size_ok _ = true |- _ => clear H end.
  unfold TensorDef.encoded_fields. cbn [TensorDef.shape TensorDef.dtype].
  change (is_packed TensorDef.DESCRIPTOR) with true.
  rewrite merge_fields_app.
  assert (Hshape :
    merge_fields TensorDef.merge
      (match shape_b with
       | [] => []
       | _ :: _ => Int64Encoder TensorDef.shape_number true shape_b
       end) {| TensorDef.shape := shape_a; TensorDef.dtype := dtype_a |}
    = Ok {| TensorDef.shape := shape_a ++ shape_b; TensorDef.dtype := dtype_a |}).
  { destruct shape_b as [ | element shape_b ]; [ now rewrite app_nil_r | ].
    unfold Int64Encoder. rewrite merge_fields_one.
    cbv [TensorDef.merge TensorDef.shape_number Z.eqb Pos.eqb].
    rewrite DecodePacked_EncodeSignedVarint by assumption. reflexivity. }
  rewrite Hshape. cbn [bind].
  destruct (Z.eqb_spec dtype_b 0) as [ -> | Hnz ]; [ reflexivity | ].
  unfold EnumEncoder. rewrite merge_fields_one.
  cbv [TensorDef.merge TensorDef.shape_number TensorDef.dtype_number Z.eqb Pos.eqb
       TensorDef.set_dtype TensorDef.shape].
  now rewrite signed_32_unsigned64.
Qed.

(** X11: parsing one serialized [TensorDef] after another merges them:
    the shapes are concatenated and the last dtype that is not 0 wins. *)
Theorem TensorDef_concatenation_merges (a b : TensorDef.t) :
  TensorDef.valid a = true -> TensorDef.valid b = true ->
  TensorDef.FromString (TensorDef.SerializeToString a ++ TensorDef.SerializeToString b)
  = Ok {| TensorDef.shape := TensorDef.shape a ++ TensorDef.shape b;
          TensorDef.dtype :=
            if TensorDef.dtype b =? 0 then TensorDef.dtype a else TensorDef.dtype b |}.
Proof.
  intros Ha Hb.
  unfold TensorDef.FromString, TensorDef.MergeFromString, TensorDef.SerializeToString.
  rewrite Fields_write_fields_app by now apply TensorDef_fields_ok.
  cbn [bind]. rewrite merge_fields_app, TensorDef_merge_encoded_fields by assumption.
  cbn [bind]. now apply TensorDef_merge_into.
Qed.

Lemma TensorDef_concatenation_merges_witness :
  TensorDef.FromString
    (TensorDef.SerializeToString sample.tensor_def
     ++ TensorDef.SerializeToString
          {| TensorDef.shape := [10]; TensorDef.dtype := opentensor_pb2.DT_INT64 |})
  = Ok {| TensorDef.shape := [1; 3; 32; 32; 10]; TensorDef.dtype := 3 |}.
Proof.
  apply (TensorDef_concatenation_merges sample.tensor_def
           {| TensorDef.shape := [10]; TensorDef.dtype := opentensor_pb2.DT_INT64 |});
    reflexivity.
Defined.

Lemma merge_unpacked_shape (shape : list Z) :
  forallb int64_ok shape = true ->
  forall self,
    merge_fields TensorDef.merge (Int64Encoder TensorDef.shape_number false shape) self
    = Ok (TensorDef.set_shape (TensorDef.shape self ++ shape) self).
Proof.
  unfold Int64Encoder.
  induction shape as [ | element shape IH ]; intros Hok self.
  - destruct self. cbn. now rewrite app_nil_r.
  - cbn [forallb] in Hok. apply andb_prop in Hok as [ He Hs ].
    cbn [map merge_fields].
    cbv [TensorDef.merge TensorDef.shape_number Z.eqb Pos.eqb]. cbn [bind].
    rewrite IH by assumption. rewrite signed_64_unsigned64 by assumption.
    destruct self. cbn [TensorDef.set_shape TensorDef.shape TensorDef.dtype].
    now rewrite <- app_assoc.
Qed.

(** X12: the parser takes a shape that is not packed: with every
    dimension sent as a varint field of its own (number 2), in order, the
    message parses to the same [TensorDef] as from the packed form. *)
Theorem unpacked_shape_is_accepted (self : TensorDef.t) :
  TensorDef.valid self = true ->
  TensorDef.FromString
    (write_fields
       (Int64Encoder TensorDef.shape_number false (TensorDef.shape self)
        ++ (if TensorDef.dtype self =? 0 then []
            else EnumEncoder TensorDef.dtype_number (TensorDef.dtype self))))
  = Ok self.
Proof.
  destruct self as [ shape dtype ]. intros Hvalid.
  unfold TensorDef.valid in Hvalid. cbn [TensorDef.shape TensorDef.dtype] in *.
  split_valid. match goal with H : size_ok _ = true |- _ => clear H end.
  unfold TensorDef.FromString, TensorDef.MergeFromString.
  rewrite Fields_write_fields.
  - cbn [bind]. rewrite merge_fields_app, merge_unpacked_shape by assumption.
    cbn [bind]. norm_TensorDef. cbn [app].
    merge_scalar @merge_enum TensorDef.dtype_number dtype TensorDef.set_dtype.
    reflexivity.
  - rewrite forallb_app. apply andb_true_intro. split.
    + unfold Int64Encoder. apply forallb_forall.
      intros f Hf. apply in_map_iff in Hf as (element & <- & Hin).
      match goal with
      | H : forallb int64_ok _ = true |- _ =>
          pose proof (unsigned64_range element (proj1 (forallb_forall _ _) H element Hin))
      end.
      cbn [field_ok TensorDef.shape_number]. change (Z.shiftl 1 64) with (2 ^ 64).
      apply andb_true_intro.
      split; [ reflexivity | apply andb_true_intro; split;
                             [ apply Z.leb_le | apply Z.ltb_lt ]; lia ].
    + destruct (dtype =? 0); [ reflexivity | ].
      match goal with
      | H : int32_ok _ = true |- _ =>
          pose proof (unsigned64_range dtype (int32_ok_int64_ok dtype H))
      end.
      cbn [EnumEncoder forallb field_ok TensorDef.dtype_number].
      change (Z.shiftl 1 64) with (2 ^ 64). rewrite andb_true_r.
      apply andb_true_intro.
      split; [ reflexivity | apply andb_true_intro; split;
                             [ apply Z.leb_le | apply Z.ltb_lt ]; lia ].
Qed.

Lemma unpacked_shape_is_accepted_witness :
  TensorDef.FromString [x10; x01; x10; x03; x10; x20; x10; x20] = Ok sample.tensor_def.
Proof.
  apply (unpacked_shape_is_accepted sample.tensor_def). reflexivity.
Defined.


(** *** The serialized descriptor *)

(** X13: [serialized_pb] and the descriptor objects say the same: parsed as
    a file descriptor proto, the bytes give the file name, the package, the
    syntax and, in order, every message with its fields (name, number,
    label, type, referenced type), the enum with its values and the two
    services with their methods, as the descriptor objects hold them; and
    the bytes between [serialized_start] and [serialized_end] of each
    message, enum and service descriptor are the proto of that one. *)
Theorem serialized_pb_agrees_with_descriptors :
  descriptor_pb2.FileDescriptorProto_FromString serialized.serialized_pb
  = Ok (descriptor_pb2.FileDescriptor_proto opentensor_pb2.DESCRIPTOR)
  /\ map (fun e => (fst (fst e),
                    descriptor_pb2.DescriptorProto_FromString
                      (serialized.slice (snd (fst e)) (snd e) serialized.serialized_pb)))
         serialized.message_offsets
     = map (fun kv => (fst kv, Ok (descriptor_pb2.Descriptor_proto ""%string (snd kv))))
         (descriptor.message_types_by_name opentensor_pb2.DESCRIPTOR)
  /\ map (fun e => (fst (fst e),
                    descriptor_pb2.EnumDescriptorProto_FromString
                      (serialized.slice (snd (fst e)) (snd e) serialized.serialized_pb)))
         serialized.enum_offsets
     = map (fun kv => (fst kv, Ok (descriptor_pb2.EnumDescriptor_proto (snd kv))))
         (descriptor.enum_types_by_name opentensor_pb2.DESCRIPTOR)
  /\ map (fun e => (fst (fst e),
                    descriptor_pb2.ServiceDescriptorProto_FromString
                      (serialized.slice (snd (fst e)) (snd e) serialized.serialized_pb)))
         serialized.service_offsets
     = map (fun kv => (fst kv, Ok (descriptor_pb2.ServiceDescriptor_proto ""%string (snd kv))))
         (descriptor.services_by_name opentensor_pb2.DESCRIPTOR).
Proof. repeat split; vm_compute; reflexivity. Qed.

End codec_props.

(** ** The loop of the training example *)
Module cifar_loop.
Import cifar cifar_events.


Section loop.

Context {Model Optimizer Toolbox Image Outputs : Type}.
Variable metagraph_stop : option unit.
Variable axon_stop : option unit.
Variable toolbox_save_model :
  Toolbox -> Model -> Z -> Optimizer -> pyfloat -> option unit.
Variable train : Model -> Optimizer -> list (Image * Z) -> Z -> option (Model * Optimizer).
Variable forward : Model -> list Image -> list Z -> option Outputs.
Variable max_logit : Outputs -> list Z.

Let test := test forward max_logit.
Let try_body := try_body toolbox_save_model train forward max_logit.
Let while_true :=
  while_true metagraph_stop axon_stop toolbox_save_model train forward max_logit.



End loop.

Section stops.

Context {Model Optimizer Toolbox Image Outputs : Type}.
Variable toolbox_save_model :
  Toolbox -> Model -> Z -> Optimizer -> pyfloat -> option unit.
Variable train : Model -> Optimizer -> list (Image * Z) -> Z -> option (Model * Optimizer).
Variable forward : Model -> list Image -> list Z -> option Outputs.
Variable max_logit : Outputs -> list Z.

Let try_body := try_body toolbox_save_model train forward max_logit.
Let while_true :=
  while_true (Some tt) (Some tt) toolbox_save_model train forward max_logit.



End stops.

Section run.

Context {Hparams Config Model Optimizer Toolbox Image Outputs : Type}.
Variable MnistSynapse : option Model.
Variable bittensor_Config : Hparams -> option Config.
Variable bittensor_init : Config -> option unit.
Variable bittensor_serve : Model -> option unit.
Variable bittensor_start : option unit.
Variable metagraph_stop : option unit.
Variable axon_stop : option unit.
Variable ModelToolbox : string -> option Toolbox.
Variable toolbox_load_model :
  Toolbox -> Model -> string -> Optimizer -> option (Model * Optimizer * Z * pyfloat).
Variable toolbox_save_model :
  Toolbox -> Model -> Z -> Optimizer -> pyfloat -> option unit.
Variable hparams_load_model : Config -> option string.
Variable CIFAR10 : Toolbox -> bool -> option (list (Image * Z)).
Variable SGD : Model -> option Optimizer.
Variable train : Model -> Optimizer -> list (Image * Z) -> Z -> option (Model * Optimizer).
Variable forward : Model -> list Image -> list Z -> option Outputs.
Variable max_logit : Outputs -> list Z.

Let while_true :=
  while_true metagraph_stop axon_stop toolbox_save_model train forward max_logit.
Let main :=
  main MnistSynapse bittensor_Config bittensor_init bittensor_serve bittensor_start
    metagraph_stop axon_stop ModelToolbox toolbox_load_model toolbox_save_model
    hparams_load_model CIFAR10 SGD train forward max_logit.




End run.



(** *** The accuracy that [test] reports *)




Section accuracy.

Context {Model Image Outputs : Type}.
Variable forward : Model -> list Image -> list Z -> option Outputs.
Variable max_logit : Outputs -> list Z.

Let test := test forward max_logit.
Let test_loop := test_loop forward max_logit.



End accuracy.



End cifar_loop.
